(** * filebuf: a buffer backed by memory or by a temporary file

    Shallow embedding of [filebuf.go].  Go values are modelled as follows:
    - [int] and [int64] are [Z]; the read offset [f.off] is an [int64] and its
      increments wrap around (see [wrap64]);
    - a byte slice is a backing array together with a length ([slice]); the
      capacity is the length of the backing array and [nil] is [None];
    - the operating system is an explicit state [osys]: a table of open file
      descriptions (contents and file position) and a table of descriptors,
      each pointing to a description.  [syscall.Dup] yields a second
      descriptor on the same description, so the aliasing of [Clone] is
      visible.  Environmental failures are switched on by [faults];
    - a method of [*Filebuf] runs in the monad [M]: the receiver and the
      operating system are threaded as state, a Go runtime panic is [Panic],
      and an unbounded [for] loop is run with fuel ([OutOfFuel]). *)

From Stdlib Require Import ZArith Lia String Bool List.
Import ListNotations.
Open Scope list_scope.

(** ** Go runtime values *)

Inductive error : Type :=
  | EOF                              (* io.EOF *)
  | ErrClosed                        (* os.ErrClosed: use of a closed file *)
  | ErrInvalid                       (* os.ErrInvalid: method on a nil *os.File *)
  | ErrNegOffset                     (* File.ReadAt: negative offset *)
  | ErrSeek                          (* lseek(2) EINVAL: negative position *)
  | ErrCreate                        (* ioutil.TempFile failed *)
  | ErrRemove                        (* os.Remove failed *)
  | ErrWrite                         (* write(2) failed *)
  | ErrDup                           (* syscall.Dup failed *)
  | Wrapf (ctx : string) (e : error). (* fmt.Errorf(ctx + ": %w", e) *)

Inductive outcome (A : Type) : Type :=
  | Ret (a : A)
  | Panic (msg : string)
  | OutOfFuel.
Arguments Ret {A} a.
Arguments Panic {A} msg.
Arguments OutOfFuel {A}.

(** [int64(z)] after an addition: two's complement wrap-around. *)
Definition wrap64 (z : Z) : Z := (z + 2 ^ 63) mod 2 ^ 64 - 2 ^ 63.

(** Writing [d] at index [i] of [l]: the bytes in between are zero when [i]
    lies past the end (a hole in a file), the tail past [i + |d|] is kept. *)
Definition write_at (l : list Byte.byte) (i : nat) (d : list Byte.byte)
  : list Byte.byte :=
  firstn i l ++ repeat Byte.x00 (i - length l) ++ d ++ skipn (i + length d) l.

(** [copy(dst, src)]: copies [min(len(dst), len(src))] elements. *)
Definition go_copy (dst src : list Byte.byte) : list Byte.byte :=
  let n := Nat.min (length dst) (length src) in
  firstn n src ++ skipn n dst.

(** *** Byte slices *)

Record slice := mkSlice { backing : list Byte.byte; slen : nat }.

Definition scap (s : slice) : nat := length (backing s).
Definition elems (s : slice) : list Byte.byte := firstn (slen s) (backing s).

(** A [nil] slice reads as an empty slice of capacity zero. *)
Definition nil_view (o : option slice) : slice :=
  match o with Some s => s | None => mkSlice [] 0 end.
Definition go_len (o : option slice) : nat := slen (nil_view o).
Definition go_cap (o : option slice) : nat := scap (nil_view o).

(** [make([]byte, l, c)] *)
Definition make_bytes (l c : Z) : outcome slice :=
  if (l <? 0)%Z then Panic "makeslice: len out of range"
  else if (c <? l)%Z then Panic "makeslice: cap out of range"
  else Ret (mkSlice (repeat Byte.x00 (Z.to_nat c)) (Z.to_nat l)).

(** [s[lo:hi]]: needs [0 <= lo <= hi <= cap(s)]; the result shares the
    backing array of [s] from index [lo]. *)
Definition reslice (s : slice) (lo hi : Z) : outcome slice :=
  if (0 <=? lo)%Z && (lo <=? hi)%Z && (hi <=? Z.of_nat (scap s))%Z
  then Ret (mkSlice (skipn (Z.to_nat lo) (backing s)) (Z.to_nat (hi - lo)))
  else Panic "slice bounds out of range".

(** ** Operating system *)

Record ofile := mkOfile { contents : list Byte.byte; fpos : nat }.

Record faults := mkFaults {
  create_fails : bool;   (* ioutil.TempFile *)
  remove_fails : bool;   (* os.Remove *)
  write_fails : bool;    (* write(2) on a file *)
  dup_fails : bool       (* dup(2) *)
}.

Record osys := mkOS {
  descs : list ofile;          (* open file descriptions *)
  fds : list (option nat);     (* descriptor -> description, None once closed *)
  flt : faults
}.

Fixpoint set_nth {A} (l : list A) (i : nat) (x : A) : list A :=
  match l, i with
  | [], _ => []
  | _ :: t, 0 => x :: t
  | h :: t, S i' => h :: set_nth t i' x
  end.

Definition set_descs (o : osys) (d : list ofile) : osys :=
  mkOS d (fds o) (flt o).
Definition set_fds (o : osys) (t : list (option nat)) : osys :=
  mkOS (descs o) t (flt o).

(** The open file description behind a descriptor of a [*os.File]. *)
Definition desc_of (o : osys) (h : nat) : option (nat * ofile) :=
  match nth_error (fds o) h with
  | Some (Some d) =>
      match nth_error (descs o) d with
      | Some of => Some (d, of)
      | None => None
      end
  | _ => None
  end.

(** [ioutil.TempFile]: a new empty file and a descriptor on it. *)
Definition os_tempfile (o : osys) : (nat + error) * osys :=
  if create_fails (flt o) then (inr ErrCreate, o)
  else (inl (length (fds o)),
        mkOS (descs o ++ [mkOfile [] 0])
             (fds o ++ [Some (length (descs o))]) (flt o)).

(** [os.Remove(name)]: unlinking the name leaves open descriptions intact. *)
Definition os_remove (o : osys) : option error * osys :=
  (if remove_fails (flt o) then Some ErrRemove else None, o).

(** [f.Write(p)] at the file position of the description. *)
Definition file_write (h : option nat) (p : list Byte.byte) (o : osys)
  : (Z * option error) * osys :=
  match h with
  | None => ((0%Z, Some ErrInvalid), o)
  | Some fd =>
      match desc_of o fd with
      | None => ((0%Z, Some ErrClosed), o)
      | Some (d, of) =>
          if write_fails (flt o) then ((0%Z, Some ErrWrite), o)
          else ((Z.of_nat (length p), None),
                set_descs o (set_nth (descs o) d
                  (mkOfile (write_at (contents of) (fpos of) p)
                           (fpos of + length p))))
      end
  end.

(** [f.ReadAt(p, off)]: positioned read, the file position is untouched.
    It fills [p] unless the end of the file comes first, and then returns
    [io.EOF] together with the bytes it found. *)
Definition file_pread (o : osys) (h : option nat) (p : list Byte.byte) (off : Z)
  : Z * list Byte.byte * option error :=
  match h with
  | None => (0%Z, p, Some ErrInvalid)
  | Some fd =>
      match desc_of o fd with
      | None => (0%Z, p, Some ErrClosed)
      | Some (_, of) =>
          if (off <? 0)%Z then (0%Z, p, Some ErrNegOffset)
          else
            let avail := skipn (Z.to_nat off) (contents of) in
            let n := Nat.min (length p) (length avail) in
            (Z.of_nat n, go_copy p avail,
             if n <? length p then Some EOF else None)
      end
  end.

(** [f.Seek(off, 0)] *)
Definition file_seek (h : option nat) (pos : Z) (o : osys) : option error * osys :=
  match h with
  | None => (Some ErrInvalid, o)
  | Some fd =>
      match desc_of o fd with
      | None => (Some ErrClosed, o)
      | Some (d, of) =>
          if (pos <? 0)%Z then (Some ErrSeek, o)
          else (None, set_descs o (set_nth (descs o) d
                                     (mkOfile (contents of) (Z.to_nat pos))))
      end
  end.

(** [syscall.Dup(fd)] followed by [os.NewFile]: a second descriptor on the
    same open file description (shared contents and shared position). *)
Definition file_dup (h : option nat) (o : osys) : (nat + error) * osys :=
  match h with
  | None => (inr ErrInvalid, o)
  | Some fd =>
      match nth_error (fds o) fd with
      | Some (Some d) =>
          if dup_fails (flt o) then (inr ErrDup, o)
          else (inl (length (fds o)), set_fds o (fds o ++ [Some d]))
      | _ => (inr ErrDup, o)
      end
  end.

(** [f.Close()] *)
Definition file_close (h : option nat) (o : osys) : option error * osys :=
  match h with
  | None => (Some ErrInvalid, o)
  | Some fd =>
      match nth_error (fds o) fd with
      | Some (Some _) => (None, set_fds o (set_nth (fds o) fd None))
      | _ => (Some ErrClosed, o)
      end
  end.

(** [io.Copy(w, f)]: everything from the file position to the end; the
    position moves to the end. *)
Definition file_read_rest (h : option nat) (o : osys)
  : (list Byte.byte * option error) * osys :=
  match h with
  | None => (([], Some ErrInvalid), o)
  | Some fd =>
      match desc_of o fd with
      | None => (([], Some ErrClosed), o)
      | Some (d, of) =>
          ((skipn (fpos of) (contents of), None),
           set_descs o (set_nth (descs o) d
                          (mkOfile (contents of) (Nat.max (fpos of) (length (contents of))))))
      end
  end.

(** ** The receiver and the method monad *)

Record Filebuf := mkFilebuf {
  MaxBufSize : Z;
  IgnoreDeleteErr : bool;
  TempDir : string;
  TempFilePattern : string;
  buf : option slice;
  file : option nat;     (* descriptor of the *os.File, None = nil *)
  off : Z                (* offset reading *)
}.

Definition set_buf (f : Filebuf) (b : option slice) : Filebuf :=
  mkFilebuf (MaxBufSize f) (IgnoreDeleteErr f) (TempDir f) (TempFilePattern f)
            b (file f) (off f).
Definition set_file (f : Filebuf) (h : option nat) : Filebuf :=
  mkFilebuf (MaxBufSize f) (IgnoreDeleteErr f) (TempDir f) (TempFilePattern f)
            (buf f) h (off f).
Definition set_off (f : Filebuf) (o : Z) : Filebuf :=
  mkFilebuf (MaxBufSize f) (IgnoreDeleteErr f) (TempDir f) (TempFilePattern f)
            (buf f) (file f) o.

(** [New(size)] *)
Definition New (size : Z) : Filebuf := mkFilebuf size false "" "" None None 0.

Definition st : Type := (Filebuf * osys)%type.
Definition M (A : Type) : Type := st -> outcome (A * st).

Definition ret {A} (a : A) : M A := fun s => Ret (a, s).
Definition bind {A B} (m : M A) (k : A -> M B) : M B :=
  fun s => match m s with
           | Ret (a, s') => k a s'
           | Panic msg => Panic msg
           | OutOfFuel => OutOfFuel
           end.

Declare Scope go_scope.
Notation "x <- m ;; k" := (bind m (fun x => k))
  (at level 61, m at next level, right associativity) : go_scope.
Notation "' p <- m ;; k" := (bind m (fun x => match x with p => k end))
  (at level 61, p pattern, m at next level, right associativity) : go_scope.
Notation "m ;; k" := (bind m (fun _ => k))
  (at level 61, right associativity) : go_scope.
Open Scope go_scope.

Definition get_fb : M Filebuf := fun s => Ret (fst s, s).
Definition put_fb (f : Filebuf) : M unit := fun s => Ret (tt, (f, snd s)).
Definition get_os : M osys := fun s => Ret (snd s, s).
Definition os_do {A} (c : osys -> A * osys) : M A :=
  fun s => let (a, o') := c (snd s) in Ret (a, (fst s, o')).
Definition lift {A} (o : outcome A) : M A :=
  fun s => match o with
           | Ret a => Ret (a, s)
           | Panic msg => Panic msg
           | OutOfFuel => OutOfFuel
           end.

(** ** Methods of [*Filebuf] *)

(** [moveToFile] *)
Definition moveToFile : M (option error) :=
  r <- os_do os_tempfile ;;
  f <- get_fb ;;
  match r with
  | inr err =>
      (* f.file, err = ioutil.TempFile(...) assigns the nil file *)
      put_fb (set_file f None) ;;
      ret (Some (Wrapf "cannot open backing temporary file" err))
  | inl fd =>
      put_fb (set_file f (Some fd)) ;;
      rerr <- os_do os_remove ;;
      match rerr, IgnoreDeleteErr f with
      | Some err, false =>
          ret (Some (Wrapf "cannot delete backing temporary file" err))
      | _, _ =>
          '(_, werr) <- os_do (file_write (Some fd) (elems (nil_view (buf f)))) ;;
          match werr with
          | Some err => ret (Some (Wrapf "cannot copy to backing temporary file" err))
          | None => ret None
          end
      end
  end.

(** [appendBuffer] *)
Definition appendBuffer (p : list Byte.byte) : M unit :=
  f <- get_fb ;;
  b <- match buf f with
       | None => lift (make_bytes 0 (MaxBufSize f))
       | Some s => ret s
       end ;;
  put_fb (set_buf f (Some b)) ;;
  let l := slen b in
  (* f.buf = f.buf[:l+len(p)] *)
  b' <- lift (reslice b 0 (Z.of_nat (l + length p))) ;;
  (* copy(f.buf[l:], p) writes through the backing array of f.buf *)
  dst <- lift (reslice b' (Z.of_nat l) (Z.of_nat (slen b'))) ;;
  let n := Nat.min (slen dst) (length p) in
  put_fb (set_buf f (Some (mkSlice (write_at (backing b') l (firstn n p)) (slen b')))).

(** [copyBuffer] *)
Definition copyBuffer (p : list Byte.byte) : M (Z * list Byte.byte) :=
  f <- get_fb ;;
  let b := nil_view (buf f) in
  let end0 := (off f + Z.of_nat (length p))%Z in
  let end1 := if (Z.of_nat (slen b) <? end0)%Z then Z.of_nat (slen b) else end0 in
  src <- lift (reslice b (off f) end1) ;;
  ret ((end1 - off f)%Z, go_copy p (elems src)).

(** [Write] *)
Definition Write (p : list Byte.byte) : M (Z * option error) :=
  f <- get_fb ;;
  match file f with
  | Some _ => os_do (file_write (file f) p)
  | None =>
      if (0 <? MaxBufSize f)%Z
         && (MaxBufSize f <? Z.of_nat (go_len (buf f) + length p))%Z then
        e <- moveToFile ;;
        match e with
        | Some err => ret (0%Z, Some err)
        | None =>
            f' <- get_fb ;;
            put_fb (set_buf f' None) ;;
            os_do (file_write (file f') p)
        end
      else
        appendBuffer p ;;
        ret (Z.of_nat (length p), None)
  end.

(** [Read] *)
Definition Read (p : list Byte.byte) : M (Z * list Byte.byte * option error) :=
  f <- get_fb ;;
  match file f with
  | Some _ =>
      o <- get_os ;;
      let '(n, p', err) := file_pread o (file f) p (off f) in
      put_fb (set_off f (wrap64 (off f + n))) ;;
      ret (n, p', err)
  | None =>
      if (Z.of_nat (go_len (buf f)) <=? off f)%Z then ret (0%Z, p, Some EOF)
      else
        '(n, p') <- copyBuffer p ;;
        put_fb (set_off f (wrap64 (off f + n))) ;;
        ret (n, p', None)
  end.

(** [ReadAt] *)
Definition ReadAt (p : list Byte.byte) (pos : Z)
  : M (Z * list Byte.byte * option error) :=
  f <- get_fb ;;
  let o := off f in
  put_fb (set_off f pos) ;;
  r <- Read p ;;
  f' <- get_fb ;;
  put_fb (set_off f' o) ;;
  ret r.

(** [Rewind] *)
Definition Rewind : M (option error) :=
  f <- get_fb ;;
  put_fb (set_off f 0) ;;
  match file f with
  | Some _ => os_do (file_seek (file f) 0)
  | None => ret None
  end.

(** A byte sink that accepts everything ([bytes.Buffer], [ioutil.Discard]). *)
Definition sink := list Byte.byte.

(** [WriteTo] *)
Definition WriteTo (w : sink) : M (Z * option error * sink) :=
  f <- get_fb ;;
  match file f with
  | Some _ =>
      e <- os_do (file_seek (file f) (off f)) ;;
      match e with
      | Some err => ret (0%Z, Some (Wrapf "cannot seek in backing file" err), w)
      | None =>
          '(d, err) <- os_do (file_read_rest (file f)) ;;
          ret (Z.of_nat (length d), err, w ++ d)
      end
  | None =>
      let b := nil_view (buf f) in
      s <- lift (reslice b (off f) (Z.of_nat (slen b))) ;;   (* f.buf[f.off:] *)
      ret (Z.of_nat (slen s), None, w ++ elems s)
  end.

(** [Clone]: a copy of the receiver; a file-backed one gets a duplicated
    descriptor.  The memory region is shared by the copy of the slice. *)
Definition Clone : M (option Filebuf * option error) :=
  f <- get_fb ;;
  match file f with
  | None => ret (Some f, None)
  | Some _ =>
      r <- os_do (file_dup (file f)) ;;
      match r with
      | inr err =>
          ret (None, Some (Wrapf "cannot duplicate handle to backing file" err))
      | inl fd => ret (Some (set_file f (Some fd)), None)
      end
  end.

(** [Close] *)
Definition Close : M (option error) :=
  f <- get_fb ;;
  match file f with
  | Some _ => os_do (file_close (file f))
  | None => put_fb (set_buf f None) ;; ret None
  end.

(** *** Sources for [ReadFrom] *)

(** An [io.Reader] over the bytes [sdata]: a call delivers at most
    [schunk] bytes ([None]: as many as asked, like [bytes.Reader]); a call
    with an empty destination delivers nothing; [io.EOF] once drained. *)
Record src := mkSrc { sdata : list Byte.byte; schunk : option nat }.

Definition src_read (r : src) (k : nat)
  : nat * list Byte.byte * option error * src :=
  match sdata r with
  | [] => (0, [], Some EOF, r)
  | _ =>
      let c := match schunk r with Some c => c | None => k end in
      let n := Nat.min k (Nat.min c (length (sdata r))) in
      (n, firstn n (sdata r), None, mkSrc (skipn n (sdata r)) (schunk r))
  end.

Section ReadFrom.

(** The capacity [append] picks when it reallocates ([growslice] of the Go
    runtime), left as a parameter; at least the needed length is used. *)
Variable grow : nat -> nat -> nat.

(** [append(s, d...)] *)
Definition go_append (o : option slice) (d : list Byte.byte) : option slice :=
  match d with
  | [] => o
  | _ =>
      let s := nil_view o in
      let need := slen s + length d in
      if need <=? scap s then Some (mkSlice (write_at (backing s) (slen s) d) need)
      else
        let c := Nat.max need (grow (scap s) need) in
        Some (mkSlice (elems s ++ d ++ repeat Byte.x00 (c - need)) need)
  end.

(** [io.Copy(f.file, r)]: the rest of the source lands in the file. *)
Definition copy_to_file (h : option nat) (r : src) : M (Z * option error * src) :=
  '(n, err) <- os_do (file_write h (sdata r)) ;;
  ret (n, err, mkSrc [] (schunk r)).

(** The [for] loop of [ReadFrom]: [inl] when the function returns from
    inside the loop, [inr] on [break]. *)
Fixpoint fill_loop (fuel : nat) (r : src) (tot : Z)
  : M ((Z * option error * src) + src) :=
  match fuel with
  | O => fun _ => OutOfFuel
  | S fuel' =>
      f <- get_fb ;;
      let b := nil_view (buf f) in
      (* r.Read(f.buf[len(f.buf) : cap(f.buf)-len(f.buf)]) *)
      w <- lift (reslice b (Z.of_nat (slen b))
                           (Z.of_nat (scap b) - Z.of_nat (slen b))%Z) ;;
      let '(m, d, rerr, r') := src_read r (slen w) in
      (* the bytes read land in the backing array of f.buf at len(f.buf) *)
      let b1 := mkSlice (write_at (backing b) (slen b) d) (slen b) in
      (* f.buf = f.buf[:len(f.buf)+m] *)
      b2 <- lift (reslice b1 0 (Z.of_nat (slen b + m))) ;;
      put_fb (set_buf f (Some b2)) ;;
      let tot' := wrap64 (tot + Z.of_nat m) in
      match rerr with
      | Some e =>
          ret (inl (tot', match e with EOF => None | _ => Some e end, r'))
      | None =>
          if slen b2 =? scap b2 then ret (inr r') else fill_loop fuel' r' tot'
      end
  end.

(** [ReadFrom] *)
Definition ReadFrom (fuel : nat) (r : src) : M (Z * option error * src) :=
  f <- get_fb ;;
  match file f with
  | Some _ => copy_to_file (file f) r
  | None =>
      if (MaxBufSize f =? 0)%Z then
        (* b := new(bytes.Buffer); n, err = io.Copy(b, r);
           f.buf = append(f.buf, b.Bytes()...) *)
        let d := sdata r in
        put_fb (set_buf f (go_append (buf f) d)) ;;
        ret (Z.of_nat (length d), None, mkSrc [] (schunk r))
      else
        b <- match buf f with
             | None => lift (make_bytes 0 (MaxBufSize f))
             | Some s => ret s
             end ;;
        put_fb (set_buf f (Some b)) ;;
        res <- fill_loop fuel r 0 ;;
        match res with
        | inl result => ret result
        | inr r' =>
            f1 <- get_fb ;;
            let m := go_len (buf f1) in
            e <- moveToFile ;;
            match e with
            | Some err => ret (0%Z, Some err, r')
            | None =>
                f2 <- get_fb ;;
                put_fb (set_buf f2 None) ;;
                '(n, err, r'') <- copy_to_file (file f2) r' ;;
                ret (wrap64 (n + Z.of_nat m), err, r'')
            end
        end
  end.

End ReadFrom.

(** ** Programs built from the methods *)

(** Successive [Write] calls, one per chunk. *)
Fixpoint write_all (ps : list (list Byte.byte)) : M (list (Z * option error)) :=
  match ps with
  | [] => ret []
  | p :: ps' => r <- Write p ;; rs <- write_all ps' ;; ret (r :: rs)
  end.

(** Successive [Read] calls, one per destination slice. *)
Fixpoint read_seq (ps : list (list Byte.byte))
  : M (list (Z * list Byte.byte * option error)) :=
  match ps with
  | [] => ret []
  | p :: ps' => r <- Read p ;; rs <- read_seq ps' ;; ret (r :: rs)
  end.

(** [io.Copy(w, f)] on the [Read] side: reads into a destination of [k]
    bytes until [io.EOF] (or another error), keeping the [n] bytes of each
    call, also those returned with [io.EOF]. *)
Fixpoint read_all (fuel k : nat) : M (list Byte.byte * option error) :=
  match fuel with
  | O => fun _ => OutOfFuel
  | S fuel' =>
      '(n, p', err) <- Read (repeat Byte.x00 k) ;;
      let got := firstn (Z.to_nat n) p' in
      match err with
      | Some EOF => ret (got, None)
      | Some e => ret (got, Some e)
      | None =>
          '(rest, err') <- read_all fuel' k ;;
          ret (got ++ rest, err')
      end
  end.

(** Write the chunks, [Rewind], read everything back. *)
Definition roundtrip (ps : list (list Byte.byte)) (fuel k : nat)
  : M (list (Z * option error) * option error * (list Byte.byte * option error)) :=
  ws <- write_all ps ;;
  e <- Rewind ;;
  rd <- read_all fuel k ;;
  ret (ws, e, rd).

(** The operations of the buffer, with the error each one returns. *)
Inductive op : Type :=
  | OpWrite (p : list Byte.byte)
  | OpRead (p : list Byte.byte)
  | OpReadAt (p : list Byte.byte) (pos : Z)
  | OpReadFrom (fuel : nat) (r : src)
  | OpWriteTo (w : sink)
  | OpRewind
  | OpClose.

Definition exec (grow : nat -> nat -> nat) (o : op) : M (option error) :=
  match o with
  | OpWrite p => '(_, e) <- Write p ;; ret e
  | OpRead p => '(_, _, e) <- Read p ;; ret e
  | OpReadAt p pos => '(_, _, e) <- ReadAt p pos ;; ret e
  | OpReadFrom fuel r => '(_, e, _) <- ReadFrom grow fuel r ;; ret e
  | OpWriteTo w => '(_, e, _) <- WriteTo w ;; ret e
  | OpRewind => Rewind
  | OpClose => Close
  end.

(** Operations of a reader: they do not append to the buffer. *)
Definition reader_op (o : op) : bool :=
  match o with
  | OpWrite _ | OpReadFrom _ _ => false
  | _ => true
  end.

(** Runs operations in order and lists the errors they return. *)
Fixpoint run (grow : nat -> nat -> nat) (os : list op) : M (list (option error)) :=
  match os with
  | [] => ret []
  | o :: os' => e <- exec grow o ;; es <- run grow os' ;; ret (e :: es)
  end.

(** The value an outcome carries, without the final state. *)
Definition result {A} (r : outcome (A * st)) : outcome A :=
  match r with
  | Ret (a, _) => Ret a
  | Panic msg => Panic msg
  | OutOfFuel => OutOfFuel
  end.

(** A buffer still in memory, its region (if any) made by [make] with
    capacity [MaxBufSize]. *)
Definition mem_wf (f : Filebuf) : Prop :=
  file f = None /\ (0 < MaxBufSize f)%Z /\
  match buf f with
  | None => True
  | Some s => slen s <= scap s /\ Z.of_nat (scap s) = MaxBufSize f
  end.

(** At most one representation holds data: a buffer with a file has no
    memory region. *)
Definition one_repr (f : Filebuf) : Prop := file f <> None -> buf f = None.

(** The errors of a promotion that failed after the temporary file was
    created. *)
Definition promotion_error (e : option error) : Prop :=
  exists err, e = Some (Wrapf "cannot delete backing temporary file" err) \/
              e = Some (Wrapf "cannot copy to backing temporary file" err).

(** A system where every call succeeds, with nothing open yet. *)
Definition os_ok : osys := mkOS [] [] (mkFaults false false false false).

(** A system where unlinking a file fails. *)
Definition os_rm : osys := mkOS [] [] (mkFaults false true false false).

(** A buffer holding one byte in memory, with threshold 1. *)
Definition fb_one : Filebuf :=
  mkFilebuf 1 false "" "" (Some (mkSlice [Byte.x01] 1)) None 0.

(** The bytes a descriptor reads, [None] once it is closed. *)
Definition fd_contents (o : osys) (h : nat) : option (list Byte.byte) :=
  match desc_of o h with
  | Some (_, of) => Some (contents of)
  | None => None
  end.

(** What the reading methods observe of a receiver: its read cursor, and
    its memory region or the contents behind its descriptor. *)
Definition view (s : st) : Z * (option slice + option (list Byte.byte)) :=
  let '(f, o) := s in
  (off f, match file f with
          | None => inl (buf f)
          | Some h => inr (fd_contents o h)
          end).

(** Two outcomes with the same result, ending in states with the same view. *)
Definition same_out {A} (r1 r2 : outcome (A * st)) : Prop :=
  match r1, r2 with
  | Ret (a1, s1), Ret (a2, s2) => a1 = a2 /\ view s1 = view s2
  | Panic m1, Panic m2 => m1 = m2
  | OutOfFuel, OutOfFuel => True
  | _, _ => False
  end.

(** A computation whose outcome is determined by the view it starts from. *)
Definition view_det {A} (m : M A) : Prop :=
  forall s1 s2, view s1 = view s2 -> same_out (m s1) (m s2).

(** The state [write_all [[1; 2; 3]]] leaves from [(New 2, os_ok)]: the
    bytes were moved to the file behind descriptor 0. *)
Definition fb_file3 : Filebuf := mkFilebuf 2 false "" "" None (Some 0) 0.
Definition file3 : ofile := mkOfile [Byte.x01; Byte.x02; Byte.x03] 3.
Definition os_file3 (t : list (option nat)) : osys := mkOS [file3] t (flt os_ok).

(** Sources delivering their bytes in chunks: five bytes two at a time and
    six bytes three at a time. *)
Definition src5 : src :=
  mkSrc [Byte.x01; Byte.x02; Byte.x03; Byte.x04; Byte.x05] (Some 2).
Definition src6 : src :=
  mkSrc [Byte.x01; Byte.x02; Byte.x03; Byte.x04; Byte.x05; Byte.x06] (Some 3).

(** The receiver after the first pass of [ReadFrom] on [New(4)] and [src5]:
    two bytes in a region of capacity four, so the read window is empty. *)
Definition fb_stall : Filebuf :=
  mkFilebuf 4 false "" "" (Some (mkSlice [Byte.x01; Byte.x02; Byte.x00; Byte.x00] 2))
            None 0.

(** The receiver holds the bytes [D] for reading: in its memory region
    (well formed), or behind its open descriptor. *)
Definition holds_data (s : st) (D : list Byte.byte) : Prop :=
  let '(f, o) := s in
  match file f with
  | None => go_len (buf f) <= go_cap (buf f) /\ elems (nil_view (buf f)) = D
  | Some h => fd_contents o h = Some D
  end.

(** A system where creating, unlinking and writing files succeed. *)
Definition no_faults (o : osys) : Prop :=
  create_fails (flt o) = false /\ remove_fails (flt o) = false /\
  write_fails (flt o) = false.

(** The receiver holds [D] for writing: in memory below its threshold, or
    in a file whose position is at its end. *)
Definition writable (s : st) (D : list Byte.byte) : Prop :=
  let '(f, o) := s in
  no_faults o /\
  match file f with
  | None => mem_wf f /\ elems (nil_view (buf f)) = D
  | Some h => exists d, desc_of o h = Some (d, mkOfile D (length D))
  end.

(** The system calls and slice primitives are unfolded by hand in proofs. *)
Arguments os_tempfile : simpl never.
Arguments os_remove : simpl never.
Arguments file_write : simpl never.
Arguments file_pread : simpl never.
Arguments file_seek : simpl never.
Arguments file_dup : simpl never.
Arguments file_close : simpl never.
Arguments file_read_rest : simpl never.
Arguments reslice : simpl never.
Arguments make_bytes : simpl never.

(** ** Lemmas about the embedding *)

Ltac monad_unfold :=
  cbv [bind ret get_fb put_fb get_os os_do lift fst snd] in *.

Lemma set_off_set_off (f : Filebuf) (a b : Z) :
  set_off (set_off f a) b = set_off f b.
Proof. destruct f; reflexivity. Qed.

Lemma set_off_same (f : Filebuf) : set_off f (off f) = f.
Proof. destruct f; reflexivity. Qed.

Lemma set_file_same (f : Filebuf) : set_file f (file f) = f.
Proof. destruct f; reflexivity. Qed.

(** [Read] changes the read offset and nothing else. *)
Lemma Read_frame (p : list Byte.byte) (f : Filebuf) (o : osys) r f' o' :
  Read p (f, o) = Ret (r, (f', o')) -> o' = o /\ exists z, f' = set_off f z.
Proof.
  unfold Read, copyBuffer. monad_unfold.
  destruct (file f) as [fd|].
  - destruct (file_pread o (Some fd) p (off f)) as [[n p'] e].
    intros H; inversion H; subst; eauto.
  - destruct (Z.of_nat (go_len (buf f)) <=? off f)%Z.
    + intros H; inversion H; subst. split; [reflexivity|].
      eexists. symmetry. apply set_off_same.
    + destruct (reslice _ _ _); intros H; inversion H; subst; eauto.
Qed.

(** *** Lists and slices *)

Lemma write_at_length (l : list Byte.byte) i d :
  i + length d <= length l -> length (write_at l i d) = length l.
Proof.
  intros H. unfold write_at.
  rewrite !length_app, repeat_length, length_firstn, length_skipn. lia.
Qed.

Lemma firstn_write_at (l : list Byte.byte) i d :
  i <= length l -> firstn (i + length d) (write_at l i d) = firstn i l ++ d.
Proof.
  intros H. unfold write_at.
  replace (i - length l) with 0 by lia. simpl.
  rewrite firstn_app, length_firstn.
  rewrite firstn_all2 by (rewrite length_firstn; lia).
  f_equal. replace (i + length d - Nat.min i (length l)) with (length d) by lia.
  rewrite firstn_app, firstn_all, Nat.sub_diag. simpl. apply app_nil_r.
Qed.

Lemma reslice_ok (s : slice) (lo hi : nat) :
  lo <= hi -> hi <= scap s ->
  reslice s (Z.of_nat lo) (Z.of_nat hi) = Ret (mkSlice (skipn lo (backing s)) (hi - lo)).
Proof.
  intros H1 H2. unfold reslice.
  replace ((0 <=? Z.of_nat lo)%Z && (Z.of_nat lo <=? Z.of_nat hi)%Z
           && (Z.of_nat hi <=? Z.of_nat (scap s))%Z) with true
    by (symmetry; rewrite !andb_true_iff, !Z.leb_le; lia).
  rewrite Nat2Z.id, <- Nat2Z.inj_sub, Nat2Z.id by lia. reflexivity.
Qed.

Lemma reslice_ok0 (s : slice) (hi : nat) :
  hi <= scap s -> reslice s 0 (Z.of_nat hi) = Ret (mkSlice (backing s) hi).
Proof.
  intros H. change 0%Z with (Z.of_nat 0). rewrite reslice_ok by lia.
  simpl. now rewrite Nat.sub_0_r.
Qed.

Lemma make_bytes_ok (c : Z) :
  (0 <= c)%Z -> make_bytes 0 c = Ret (mkSlice (repeat Byte.x00 (Z.to_nat c)) 0).
Proof.
  intros H. unfold make_bytes. simpl.
  replace (c <? 0)%Z with false by (symmetry; apply Z.ltb_ge; lia). reflexivity.
Qed.

(** *** Writing in memory *)

Lemma appendBuffer_mem (f : Filebuf) (o : osys) (p : list Byte.byte) :
  mem_wf f -> (Z.of_nat (go_len (buf f) + length p) <= MaxBufSize f)%Z ->
  exists s', appendBuffer p (f, o) = Ret (tt, (set_buf f (Some s'), o)) /\
    slen s' = go_len (buf f) + length p /\
    Z.of_nat (scap s') = MaxBufSize f /\
    elems s' = elems (nil_view (buf f)) ++ p.
Proof.
  intros [Hfile [Hpos Hb]] Hle.
  assert (Hb' : exists b, (match buf f with
                           | None => lift (make_bytes 0 (MaxBufSize f))
                           | Some s => ret s end) (f, o) = Ret (b, (f, o)) /\
                slen b = go_len (buf f) /\ slen b <= scap b /\
                Z.of_nat (scap b) = MaxBufSize f /\
                elems b = elems (nil_view (buf f))).
  { destruct (buf f) as [s|]; monad_unfold.
    - exists s. unfold go_len. simpl. intuition.
    - rewrite make_bytes_ok by lia. eexists; split; [reflexivity|].
      unfold scap, elems, go_len. simpl. rewrite repeat_length. intuition lia. }
  destruct Hb' as [b [Eb [Hl [Hlc [Hc He]]]]].
  unfold appendBuffer. unfold bind at 1 2, get_fb at 1. unfold bind at 1.
  change (fst (f, o)) with f. rewrite Eb. monad_unfold.
  rewrite reslice_ok0 by (unfold scap in *; lia). simpl.
  rewrite reslice_ok by (unfold scap in *; simpl; lia). simpl.
  replace (Nat.min (slen b + length p - slen b) (length p)) with (length p) by lia.
  rewrite firstn_all.
  eexists; split; [reflexivity|].
  unfold scap, elems in *; simpl. rewrite <- Hl. split; [reflexivity|]. split.
  - rewrite write_at_length by lia. exact Hc.
  - rewrite firstn_write_at by lia. now rewrite He.
Qed.

Lemma mem_wf_set_buf (f : Filebuf) (s : slice) :
  mem_wf f -> slen s <= scap s -> Z.of_nat (scap s) = MaxBufSize f ->
  mem_wf (set_buf f (Some s)).
Proof. intros [H1 [H2 _]] H3 H4. unfold mem_wf. simpl. auto. Qed.

Lemma mem_wf_len (f : Filebuf) :
  mem_wf f -> (Z.of_nat (go_len (buf f)) <= MaxBufSize f)%Z.
Proof.
  intros [_ [Hpos Hb]]. unfold go_len. destruct (buf f) as [s|]; simpl; lia.
Qed.

Lemma Write_mem (f : Filebuf) (o : osys) (p : list Byte.byte) :
  mem_wf f -> (Z.of_nat (go_len (buf f) + length p) <= MaxBufSize f)%Z ->
  exists s', Write p (f, o) = Ret ((Z.of_nat (length p), None), (set_buf f (Some s'), o)) /\
    slen s' = go_len (buf f) + length p /\
    Z.of_nat (scap s') = MaxBufSize f /\
    elems s' = elems (nil_view (buf f)) ++ p.
Proof.
  intros Hwf Hle.
  destruct (appendBuffer_mem f o p Hwf Hle) as [s' [E Hs]].
  exists s'. split; [|exact Hs].
  destruct Hwf as [Hfile _].
  unfold Write. monad_unfold. rewrite Hfile.
  rewrite (proj2 (Z.ltb_ge _ _) Hle), andb_false_r. rewrite E. reflexivity.
Qed.

(** *** Promotion *)

Lemma moveToFile_created (f : Filebuf) (o : osys) :
  create_fails (flt o) = false ->
  exists e o', moveToFile (f, o) = Ret (e, (set_file f (Some (length (fds o))), o')).
Proof.
  intros Hc. unfold moveToFile. monad_unfold.
  unfold os_tempfile at 1. rewrite Hc. simpl.
  unfold os_remove. simpl.
  destruct (remove_fails (flt o)), (IgnoreDeleteErr f); simpl;
    try (destruct (file_write _ _ _) as [[n [e|]] o2]; simpl); eauto.
Qed.

Lemma Write_promote (f : Filebuf) (o : osys) (p : list Byte.byte) :
  mem_wf f -> (MaxBufSize f < Z.of_nat (go_len (buf f) + length p))%Z ->
  create_fails (flt o) = false ->
  exists r f' o', Write p (f, o) = Ret (r, (f', o')) /\ file f' = Some (length (fds o)).
Proof.
  intros [Hfile [Hpos _]] Hgt Hc.
  unfold Write. monad_unfold. rewrite Hfile.
  rewrite (proj2 (Z.ltb_lt _ _) Hpos), (proj2 (Z.ltb_lt _ _) Hgt). simpl.
  destruct (moveToFile_created f o Hc) as [e [o' E]]. rewrite E.
  destruct e as [err|]; simpl.
  - eauto.
  - destruct (file_write _ _ _) as [r o2]. simpl. eauto.
Qed.

Lemma Write_file (f : Filebuf) (o : osys) (p : list Byte.byte) (fd : nat) :
  file f = Some fd -> exists r o', Write p (f, o) = Ret (r, (f, o')).
Proof.
  intros H. unfold Write. monad_unfold. rewrite H.
  destruct (file_write _ _ _) as [r o']. eauto.
Qed.

Lemma write_all_file (ps : list (list Byte.byte)) (f : Filebuf) (o : osys) (fd : nat) :
  file f = Some fd -> exists rs o', write_all ps (f, o) = Ret (rs, (f, o')).
Proof.
  revert o. induction ps as [|p ps IH]; intros o H; simpl.
  - monad_unfold. eauto.
  - monad_unfold. destruct (Write_file f o p fd H) as [r [o1 ->]].
    destruct (IH o1 H) as [rs [o2 ->]]. eauto.
Qed.

Lemma write_all_mem (ps : list (list Byte.byte)) (f : Filebuf) (o : osys) :
  mem_wf f ->
  (Z.of_nat (go_len (buf f) + length (concat ps)) <= MaxBufSize f)%Z ->
  exists f', write_all ps (f, o) =
             Ret (map (fun p => (Z.of_nat (length p), None)) ps, (f', o)) /\
    mem_wf f' /\ MaxBufSize f' = MaxBufSize f /\
    go_len (buf f') = go_len (buf f) + length (concat ps) /\
    elems (nil_view (buf f')) = elems (nil_view (buf f)) ++ concat ps.
Proof.
  revert f. induction ps as [|p ps IH]; intros f Hwf Hle; simpl.
  - exists f. monad_unfold. rewrite !app_nil_r, Nat.add_0_r. auto.
  - cbn [concat] in *. rewrite length_app in Hle.
    destruct (Write_mem f o p Hwf ltac:(lia)) as [s' [E [Hl [Hc He]]]].
    assert (Hwf' : mem_wf (set_buf f (Some s'))).
    { apply mem_wf_set_buf; auto. unfold scap in *.
      apply Nat2Z.inj_le. rewrite Hc. lia. }
    destruct (IH (set_buf f (Some s')) Hwf') as [f' [E' [Hwf'' [Hm [Hl' He']]]]].
    { simpl. unfold go_len at 1. simpl. lia. }
    exists f'. monad_unfold. rewrite E. rewrite E'.
    split; [reflexivity|]. simpl in *. unfold go_len in Hl' at 2. simpl in Hl'.
    rewrite Hm, Hl', Hl, He', He, length_app, app_assoc. auto with arith.
Qed.

Lemma write_all_promote (ps : list (list Byte.byte)) (f : Filebuf) (o : osys) :
  mem_wf f ->
  (MaxBufSize f < Z.of_nat (go_len (buf f) + length (concat ps)))%Z ->
  create_fails (flt o) = false ->
  exists rs f' o', write_all ps (f, o) = Ret (rs, (f', o')) /\ file f' <> None.
Proof.
  revert f. induction ps as [|p ps IH]; intros f Hwf Hgt Hc; simpl in *.
  - apply mem_wf_len in Hwf. lia.
  - rewrite length_app in Hgt.
    destruct (Z.lt_ge_cases (MaxBufSize f) (Z.of_nat (go_len (buf f) + length p))) as [Hp|Hp].
    + destruct (Write_promote f o p Hwf Hp Hc) as [r [f1 [o1 [E Hf1]]]].
      destruct (write_all_file ps f1 o1 _ Hf1) as [rs [o2 E']].
      monad_unfold. rewrite E, E'. do 3 eexists. split; [reflexivity|].
      rewrite Hf1. discriminate.
    + destruct (Write_mem f o p Hwf Hp) as [s' [E [Hl [Hcap He]]]].
      assert (Hwf' : mem_wf (set_buf f (Some s'))).
      { apply mem_wf_set_buf; auto. unfold scap in *.
        apply Nat2Z.inj_le. rewrite Hcap. lia. }
      destruct (IH (set_buf f (Some s')) Hwf') as [rs [f' [o' [E' Hf']]]];
        [simpl; unfold go_len at 1; simpl; lia | exact Hc |].
      monad_unfold. rewrite E, E'. eauto.
Qed.

Lemma moveToFile_created_err (f : Filebuf) (o : osys) :
  create_fails (flt o) = false ->
  exists e o', moveToFile (f, o) = Ret (e, (set_file f (Some (length (fds o))), o')) /\
    (e = None \/ exists ctx err, e = Some (Wrapf ctx err)).
Proof.
  intros Hc. unfold moveToFile. monad_unfold.
  unfold os_tempfile at 1. rewrite Hc. simpl.
  unfold os_remove. simpl.
  destruct (remove_fails (flt o)), (IgnoreDeleteErr f); simpl;
    try (destruct (file_write _ _ _) as [[n [e|]] o2]; simpl);
    eauto 10.
Qed.

Lemma moveToFile_create_fails (f : Filebuf) (o : osys) :
  create_fails (flt o) = true ->
  moveToFile (f, o) =
  Ret (Some (Wrapf "cannot open backing temporary file" ErrCreate), (set_file f None, o)).
Proof.
  intros Hc. unfold moveToFile. monad_unfold. unfold os_tempfile at 1.
  rewrite Hc. reflexivity.
Qed.

(** [f.Write] reports the errors of the system unwrapped. *)
Lemma file_write_unwrapped h p o n e o' :
  file_write h p o = ((n, Some e), o') -> forall ctx err, e <> Wrapf ctx err.
Proof.
  unfold file_write. intros H ctx err.
  destruct h as [fd|]; [destruct (desc_of o fd) as [[d of]|];
    [destruct (write_fails (flt o))|]|];
    inversion H; discriminate.
Qed.

(** *** Frame properties of the methods *)

Lemma ReadAt_unfold (f : Filebuf) (o : osys) (p : list Byte.byte) (pos : Z) :
  ReadAt p pos (f, o) =
  match Read p (set_off f pos, o) with
  | Ret (r, _) => Ret (r, (f, o))
  | Panic msg => Panic msg
  | OutOfFuel => OutOfFuel
  end.
Proof.
  unfold ReadAt. monad_unfold.
  destruct (Read p (set_off f pos, o)) as [[r [f' o']]| |] eqn:E; try reflexivity.
  apply Read_frame in E as [-> [z ->]].
  now rewrite !set_off_set_off, set_off_same.
Qed.

Lemma Write_sticky (f : Filebuf) (o : osys) (p : list Byte.byte) r f' o' :
  file f <> None -> Write p (f, o) = Ret (r, (f', o')) -> f' = f.
Proof.
  intros Hf E. destruct (file f) as [fd|] eqn:Hfd; [|congruence].
  destruct (Write_file f o p fd Hfd) as [r1 [o1 E1]].
  rewrite E1 in E. congruence.
Qed.

Lemma copy_to_file_frame h r (f : Filebuf) (o : osys) x f' o' :
  copy_to_file h r (f, o) = Ret (x, (f', o')) -> f' = f.
Proof.
  unfold copy_to_file. monad_unfold.
  destruct (file_write _ _ _) as [[n e] o1]. intros E. congruence.
Qed.

Lemma ReadFrom_sticky grow fuel r (f : Filebuf) (o : osys) x f' o' :
  file f <> None -> ReadFrom grow fuel r (f, o) = Ret (x, (f', o')) -> f' = f.
Proof.
  intros Hf. unfold ReadFrom. unfold bind at 1, get_fb at 1.
  change (fst (f, o)) with f.
  destruct (file f) as [fd|]; [|congruence].
  apply copy_to_file_frame.
Qed.

Lemma WriteTo_frame (w : sink) (f : Filebuf) (o : osys) r f' o' :
  WriteTo w (f, o) = Ret (r, (f', o')) -> f' = f.
Proof.
  unfold WriteTo. monad_unfold. destruct (file f) as [fd|].
  - destruct (file_seek _ _ _) as [[err|] o1]; [congruence|].
    destruct (file_read_rest _ _) as [[d e] o2]. congruence.
  - destruct (reslice _ _ _); congruence.
Qed.

Lemma Rewind_frame (f : Filebuf) (o : osys) e f' o' :
  Rewind (f, o) = Ret (e, (f', o')) -> f' = set_off f 0.
Proof.
  unfold Rewind. monad_unfold. destruct (file f) as [fd|].
  - destruct (file_seek _ _ _) as [e1 o1]. congruence.
  - congruence.
Qed.

Lemma Close_frame (f : Filebuf) (o : osys) e f' o' :
  Close (f, o) = Ret (e, (f', o')) ->
  f' = f \/ (file f = None /\ f' = set_buf f None).
Proof.
  unfold Close. monad_unfold. destruct (file f) as [fd|] eqn:Hf.
  - destruct (file_close _ _) as [e1 o1]. intros E. left. congruence.
  - intros E. right. split; [reflexivity|congruence].
Qed.

Lemma appendBuffer_frame (p : list Byte.byte) (f : Filebuf) (o : osys) x f' o' :
  appendBuffer p (f, o) = Ret (x, (f', o')) -> exists b, f' = set_buf f b.
Proof.
  unfold appendBuffer. monad_unfold.
  destruct (buf f) as [s|];
    [|destruct (make_bytes _ _) as [b| |]; [|discriminate|discriminate]];
    simpl; (destruct (reslice _ _ _) as [b1| |]; [|discriminate|discriminate]);
    (destruct (reslice _ _ _) as [b2| |]; [|discriminate|discriminate]);
    intros E; inversion E; eauto.
Qed.

Lemma fill_loop_frame fuel r tot (f : Filebuf) (o : osys) x f' o' :
  fill_loop fuel r tot (f, o) = Ret (x, (f', o')) ->
  o' = o /\ exists b, f' = set_buf f b.
Proof.
  revert r tot f. induction fuel as [|fuel IH]; intros r tot f; simpl.
  - discriminate.
  - monad_unfold.
    destruct (reslice _ _ _) as [w| |]; [|discriminate|discriminate].
    destruct (src_read r (slen w)) as [[[m d] rerr] r'].
    destruct (reslice _ _ _) as [b2| |]; [|discriminate|discriminate].
    destruct rerr as [e|].
    + intros E. inversion E; subst. eauto.
    + destruct (Nat.eqb _ _).
      * intros E. inversion E; subst. eauto.
      * intros E. apply IH in E as [-> [b ->]]. split; [reflexivity|].
        exists b. destruct f; reflexivity.
Qed.

Lemma moveToFile_cases (f : Filebuf) (o : osys) e f' o' :
  moveToFile (f, o) = Ret (e, (f', o')) ->
  (f' = set_file f None /\ e <> None) \/
  (exists fd, f' = set_file f (Some fd) /\ (e = None \/ promotion_error e)).
Proof.
  unfold moveToFile. monad_unfold.
  destruct (os_tempfile o) as [[fd|err] o1].
  - simpl. unfold os_remove. simpl.
    destruct (remove_fails (flt o1)), (IgnoreDeleteErr f); simpl;
      try (destruct (file_write _ _ _) as [[n [e1|]] o2]; simpl);
      intros E; inversion E; subst; right; exists fd; split; auto;
      right; unfold promotion_error; eauto.
  - intros E. inversion E; subst. left. split; [reflexivity|discriminate].
Qed.

Lemma one_repr_no_file (f : Filebuf) : file f = None -> one_repr f.
Proof. unfold one_repr. congruence. Qed.

Lemma one_repr_no_buf (f : Filebuf) : buf f = None -> one_repr f.
Proof. unfold one_repr. auto. Qed.

Lemma Write_mem_cases (f : Filebuf) (o : osys) (p : list Byte.byte) n e f' o' :
  file f = None -> Write p (f, o) = Ret ((n, e), (f', o')) ->
  one_repr f' \/ promotion_error e.
Proof.
  intros Hfile. unfold Write. monad_unfold. rewrite Hfile.
  destruct (_ && _).
  - destruct (moveToFile (f, o)) as [[e0 [f1 o1]]| |] eqn:Em; try discriminate.
    apply moveToFile_cases in Em. destruct e0 as [err|].
    + intros E. inversion E; subst.
      destruct Em as [[-> _]|[fd [-> [H|H]]]].
      * left. apply one_repr_no_file. reflexivity.
      * discriminate.
      * right. exact H.
    + simpl. destruct (file_write _ _ _) as [r2 o2].
      intros E. inversion E; subst. left. apply one_repr_no_buf. reflexivity.
  - destruct (appendBuffer p (f, o)) as [[x [f1 o1]]| |] eqn:Ea; try discriminate.
    apply appendBuffer_frame in Ea as [b ->].
    intros E. inversion E; subst. left. apply one_repr_no_file. exact Hfile.
Qed.

Lemma ReadFrom_mem_cases grow fuel r (f : Filebuf) (o : osys) n e r' f' o' :
  file f = None -> ReadFrom grow fuel r (f, o) = Ret ((n, e, r'), (f', o')) ->
  one_repr f' \/ promotion_error e.
Proof.
  intros Hfile. unfold ReadFrom. unfold bind at 1, get_fb at 1.
  change (fst (f, o)) with f. rewrite Hfile.
  destruct (MaxBufSize f =? 0)%Z.
  - monad_unfold. intros E. inversion E; subst. left.
    apply one_repr_no_file. exact Hfile.
  - monad_unfold.
    assert (Hb : forall b, file (set_buf f b) = None) by (intros; exact Hfile).
    destruct (buf f) as [s|];
      [|destruct (make_bytes _ _) as [s| |]; [|discriminate|discriminate]];
      simpl;
      (destruct (fill_loop fuel r 0 (set_buf f (Some s), o)) as [[res [f1 o1]]| |] eqn:El;
       [|discriminate|discriminate]);
      apply fill_loop_frame in El as [-> [b' ->]];
      (destruct res as [result|r1];
       [intros E; inversion E; subst; left; apply one_repr_no_file; apply Hfile|]);
      simpl;
      (destruct (moveToFile (set_buf (set_buf f (Some s)) b', o))
         as [[e0 [f2 o2]]| |] eqn:Em; [|discriminate|discriminate]);
      apply moveToFile_cases in Em;
      (destruct e0 as [err|];
       [intros E; inversion E; subst;
        destruct Em as [[-> _]|[fd [-> [H|H]]]];
        [left; apply one_repr_no_file; reflexivity | discriminate | right; exact H]
       |]);
      simpl;
      (destruct (copy_to_file _ _ _) as [[x [f3 o3]]| |] eqn:Ec; [|discriminate|discriminate]);
      apply copy_to_file_frame in Ec; subst;
      destruct x as [[n3 e3] r3]; intros E; inversion E; subst;
      left; apply one_repr_no_buf; reflexivity.
Qed.

(** *** Operations and runs *)

Lemma exec_sticky grow op (f : Filebuf) (o : osys) e f' o' :
  file f <> None -> exec grow op (f, o) = Ret (e, (f', o')) ->
  file f' = file f /\ buf f' = buf f.
Proof.
  intros Hf. destruct op; unfold exec; monad_unfold.
  - destruct (Write p (f, o)) as [[[n e1] [f1 o1]]| |] eqn:E; try discriminate.
    intros H; inversion H; subst. apply Write_sticky in E; [subst; auto|auto].
  - destruct (Read p (f, o)) as [[[[n p'] e1] [f1 o1]]| |] eqn:E; try discriminate.
    intros H; inversion H; subst. apply Read_frame in E as [_ [z ->]]. auto.
  - rewrite ReadAt_unfold.
    destruct (Read p (set_off f pos, o)) as [[x [f1 o1]]| |]; try discriminate.
    destruct x as [[n p'] e1]. intros H; inversion H; subst; auto.
  - destruct (ReadFrom grow fuel r (f, o)) as [[[[n e1] r1] [f1 o1]]| |] eqn:E;
      try discriminate.
    intros H; inversion H; subst. apply ReadFrom_sticky in E; [subst; auto|auto].
  - destruct (WriteTo w (f, o)) as [[[[n e1] w1] [f1 o1]]| |] eqn:E; try discriminate.
    intros H; inversion H; subst. apply WriteTo_frame in E. subst. auto.
  - intros H. apply Rewind_frame in H. subst. auto.
  - intros H. apply Close_frame in H as [->|[H1 _]]; [auto|contradiction].
Qed.

Lemma exec_one_repr grow op (f : Filebuf) (o : osys) e f' o' :
  one_repr f -> exec grow op (f, o) = Ret (e, (f', o')) ->
  one_repr f' \/ promotion_error e.
Proof.
  intros Hinv H.
  destruct (file f) as [fd|] eqn:Hf.
  - left. destruct (exec_sticky grow op f o e f' o') as [H1 H2];
      [congruence|exact H|].
    intros _. rewrite H2. apply Hinv. congruence.
  - destruct op; unfold exec in H; monad_unfold.
    + destruct (Write p (f, o)) as [[[n e1] [f1 o1]]| |] eqn:E; try discriminate.
      inversion H; subst. eapply Write_mem_cases; eauto.
    + destruct (Read p (f, o)) as [[[[n p'] e1] [f1 o1]]| |] eqn:E; try discriminate.
      inversion H; subst. apply Read_frame in E as [_ [z ->]].
      left. apply one_repr_no_file. exact Hf.
    + rewrite ReadAt_unfold in H.
      destruct (Read p (set_off f pos, o)) as [[x [f1 o1]]| |]; try discriminate.
      destruct x as [[n p'] e1]. inversion H; subst. left. exact Hinv.
    + destruct (ReadFrom grow fuel r (f, o)) as [[[[n e1] r1] [f1 o1]]| |] eqn:E;
        try discriminate.
      inversion H; subst. eapply ReadFrom_mem_cases; eauto.
    + destruct (WriteTo w (f, o)) as [[[[n e1] w1] [f1 o1]]| |] eqn:E; try discriminate.
      inversion H; subst. apply WriteTo_frame in E. subst. left. exact Hinv.
    + apply Rewind_frame in H. subst. left. apply one_repr_no_file. exact Hf.
    + apply Close_frame in H as [->|[_ ->]]; left; [exact Hinv|].
      apply one_repr_no_buf. reflexivity.
Qed.

Lemma run_sticky grow ops (f : Filebuf) (o : osys) es f' o' :
  file f <> None -> run grow ops (f, o) = Ret (es, (f', o')) ->
  file f' = file f /\ buf f' = buf f.
Proof.
  revert f o es. induction ops as [|op ops IH]; intros f o es Hf; simpl; monad_unfold.
  - intros H. inversion H; subst. auto.
  - destruct (exec grow op (f, o)) as [[e [f1 o1]]| |] eqn:E; try discriminate.
    apply exec_sticky in E as [H1 H2]; [|exact Hf].
    destruct (run grow ops (f1, o1)) as [[es1 [f2 o2]]| |] eqn:E2; try discriminate.
    intros H. inversion H; subst.
    apply IH in E2 as [H3 H4]; [|congruence]. split; congruence.
Qed.

Lemma run_one_repr grow ops (f : Filebuf) (o : osys) es f' o' :
  one_repr f -> run grow ops (f, o) = Ret (es, (f', o')) ->
  Forall (fun e => ~ promotion_error e) es -> one_repr f'.
Proof.
  revert f o es. induction ops as [|op ops IH]; intros f o es Hinv; simpl; monad_unfold.
  - intros H. inversion H; subst. auto.
  - destruct (exec grow op (f, o)) as [[e [f1 o1]]| |] eqn:E; try discriminate.
    destruct (run grow ops (f1, o1)) as [[es1 [f2 o2]]| |] eqn:E2; try discriminate.
    intros H Hes. inversion H; subst. inversion Hes; subst.
    destruct (exec_one_repr grow op f o e f1 o1 Hinv E) as [Hinv1|Hp];
      [eapply IH; eauto|contradiction].
Qed.

(** *** Reading *)

Lemma reslice_okZ (s : slice) (lo hi : Z) :
  (0 <= lo)%Z -> (lo <= hi)%Z -> (hi <= Z.of_nat (scap s))%Z ->
  reslice s lo hi = Ret (mkSlice (skipn (Z.to_nat lo) (backing s)) (Z.to_nat (hi - lo))).
Proof.
  intros H1 H2 H3. unfold reslice.
  replace ((0 <=? lo)%Z && (lo <=? hi)%Z && (hi <=? Z.of_nat (scap s))%Z) with true
    by (symmetry; rewrite !andb_true_iff, !Z.leb_le; lia).
  reflexivity.
Qed.

Lemma Read_mem_eof (f : Filebuf) (o : osys) (p : list Byte.byte) :
  file f = None -> (Z.of_nat (go_len (buf f)) <= off f)%Z ->
  Read p (f, o) = Ret ((0%Z, p, Some EOF), (f, o)).
Proof.
  intros Hf Hle. unfold Read. monad_unfold. rewrite Hf.
  rewrite (proj2 (Z.leb_le _ _) Hle). reflexivity.
Qed.

Lemma Read_mem_data (f : Filebuf) (o : osys) (p : list Byte.byte) :
  file f = None -> go_len (buf f) <= go_cap (buf f) ->
  (0 <= off f < Z.of_nat (go_len (buf f)))%Z ->
  let n := Z.min (Z.of_nat (length p)) (Z.of_nat (go_len (buf f)) - off f) in
  exists p', Read p (f, o) = Ret ((n, p', None), (set_off f (wrap64 (off f + n)), o)).
Proof.
  intros Hf Hwf Hoff n. unfold Read, copyBuffer. monad_unfold. rewrite Hf.
  rewrite (proj2 (Z.leb_gt _ _) (proj2 Hoff)).
  unfold go_len, go_cap in *.
  destruct (Z.ltb_spec (Z.of_nat (slen (nil_view (buf f))))
                       (off f + Z.of_nat (length p))) as [Hlt|Hge].
  - rewrite reslice_okZ by (unfold scap in *; lia).
    replace (Z.of_nat (slen (nil_view (buf f))) - off f)%Z with n by (unfold n; lia).
    eexists. reflexivity.
  - rewrite reslice_okZ by (unfold scap in *; lia).
    replace (off f + Z.of_nat (length p) - off f)%Z with n by (unfold n; lia).
    eexists. reflexivity.
Qed.

Lemma Read_file (f : Filebuf) (o : osys) (p : list Byte.byte) fd d of :
  file f = Some fd -> desc_of o fd = Some (d, of) -> (0 <= off f)%Z ->
  let n := Nat.min (length p) (length (contents of) - Z.to_nat (off f)) in
  exists p', Read p (f, o) =
    Ret ((Z.of_nat n, p', if n <? length p then Some EOF else None),
         (set_off f (wrap64 (off f + Z.of_nat n)), o)).
Proof.
  intros Hf Hd Hoff n. unfold Read. monad_unfold. rewrite Hf.
  unfold file_pread. rewrite Hd.
  rewrite (proj2 (Z.ltb_ge _ _) Hoff). rewrite length_skipn. fold n.
  eexists. reflexivity.
Qed.

(** *** Views and clones *)

Lemma nth_error_set_nth {A} (l : list A) (i j : nat) (x : A) :
  nth_error (set_nth l i x) j =
  if Nat.eqb i j then match nth_error l j with Some _ => Some x | None => None end
  else nth_error l j.
Proof.
  revert i j. induction l as [|a l IH]; intros i j.
  - destruct (Nat.eqb i j), j; reflexivity.
  - destruct i, j; simpl; auto.
Qed.

Lemma desc_of_descs (o : osys) h d of :
  desc_of o h = Some (d, of) -> nth_error (descs o) d = Some of.
Proof.
  unfold desc_of. destruct (nth_error (fds o) h) as [[d'|]|]; try discriminate.
  destruct (nth_error (descs o) d') eqn:E; congruence.
Qed.

(** Replacing a description by one with the same contents changes no
    descriptor's contents. *)
Lemma fd_contents_set_desc (o : osys) d of x h :
  nth_error (descs o) d = Some of -> contents x = contents of ->
  fd_contents (set_descs o (set_nth (descs o) d x)) h = fd_contents o h.
Proof.
  intros Hd Hc. unfold fd_contents, desc_of, set_descs. simpl.
  destruct (nth_error (fds o) h) as [[d'|]|]; auto.
  rewrite nth_error_set_nth. destruct (Nat.eqb_spec d d').
  - subst. rewrite Hd. congruence.
  - reflexivity.
Qed.

Lemma file_seek_contents h pos (o : osys) h' :
  fd_contents (snd (file_seek h pos o)) h' = fd_contents o h'.
Proof.
  unfold file_seek. destruct h as [fd|]; [|reflexivity].
  destruct (desc_of o fd) as [[d of]|] eqn:E; [|reflexivity].
  destruct (pos <? 0)%Z; [reflexivity|].
  eapply fd_contents_set_desc; [eapply desc_of_descs; eauto|reflexivity].
Qed.

Lemma file_read_rest_contents h (o : osys) h' :
  fd_contents (snd (file_read_rest h o)) h' = fd_contents o h'.
Proof.
  unfold file_read_rest. destruct h as [fd|]; [|reflexivity].
  destruct (desc_of o fd) as [[d of]|] eqn:E; [|reflexivity].
  eapply fd_contents_set_desc; [eapply desc_of_descs; eauto|reflexivity].
Qed.

Lemma file_close_contents h (o : osys) h' :
  h <> Some h' -> fd_contents (snd (file_close h o)) h' = fd_contents o h'.
Proof.
  unfold file_close. intros Hh. destruct h as [fd|]; [|reflexivity].
  destruct (nth_error (fds o) fd) as [[d|]|]; try reflexivity.
  unfold fd_contents, desc_of, set_fds. simpl.
  rewrite nth_error_set_nth. destruct (Nat.eqb_spec fd h'); [congruence|reflexivity].
Qed.

(** The error of a seek to 0 depends only on whether the descriptor is open. *)
Lemma file_seek_zero_err h (o : osys) :
  fst (file_seek (Some h) 0 o) =
  match fd_contents o h with Some _ => None | None => Some ErrClosed end.
Proof.
  unfold file_seek, fd_contents. destruct (desc_of o h) as [[d of]|]; reflexivity.
Qed.

Lemma file_pread_view (o1 o2 : osys) h1 h2 p pos :
  fd_contents o1 h1 = fd_contents o2 h2 ->
  file_pread o1 (Some h1) p pos = file_pread o2 (Some h2) p pos.
Proof.
  unfold fd_contents, file_pread.
  destruct (desc_of o1 h1) as [[d1 of1]|], (desc_of o2 h2) as [[d2 of2]|];
    intros E; try discriminate; [|reflexivity].
  injection E as E. rewrite E. reflexivity.
Qed.

Lemma same_out_result {A} (r1 r2 : outcome (A * st)) :
  same_out r1 r2 -> result r1 = result r2.
Proof.
  destruct r1 as [[a1 s1]| |], r2 as [[a2 s2]| |]; simpl; intros H;
    try contradiction; [destruct H as [-> _]|subst|]; reflexivity.
Qed.

Lemma view_det_ret {A} (a : A) : view_det (ret a).
Proof. intros s1 s2 H. simpl. auto. Qed.

Lemma view_det_bind {A B} (m : M A) (k : A -> M B) :
  view_det m -> (forall a, view_det (k a)) -> view_det (bind m k).
Proof.
  intros Hm Hk s1 s2 H. unfold bind.
  specialize (Hm s1 s2 H).
  destruct (m s1) as [[a1 t1]| |], (m s2) as [[a2 t2]| |]; simpl in Hm;
    try contradiction; auto.
  destruct Hm as [<- Ht]. apply Hk. exact Ht.
Qed.

Lemma view_mem (f1 f2 : Filebuf) (o1 o2 : osys) :
  view (f1, o1) = view (f2, o2) -> file f1 = None ->
  file f2 = None /\ buf f1 = buf f2 /\ off f1 = off f2.
Proof.
  unfold view. intros H Hf1. rewrite Hf1 in H.
  destruct (file f2); [discriminate|]. injection H as H1 H2. auto.
Qed.

Lemma view_file (f1 f2 : Filebuf) (o1 o2 : osys) h1 :
  view (f1, o1) = view (f2, o2) -> file f1 = Some h1 ->
  exists h2, file f2 = Some h2 /\ fd_contents o1 h1 = fd_contents o2 h2 /\
             off f1 = off f2.
Proof.
  unfold view. intros H Hf1. rewrite Hf1 in H.
  destruct (file f2) as [h2|]; [|discriminate]. injection H as H1 H2. eauto.
Qed.

(** [Read] depends only on the view of the receiver, and keeps views equal. *)
Lemma Read_view_det (p : list Byte.byte) : view_det (Read p).
Proof.
  intros [f1 o1] [f2 o2] H.
  destruct (file f1) as [h1|] eqn:F1.
  - destruct (view_file f1 f2 o1 o2 h1 H F1) as (h2 & F2 & Hc & Ho).
    unfold Read. monad_unfold. rewrite F1, F2.
    rewrite (file_pread_view o1 o2 h1 h2 p (off f1) Hc), Ho.
    destruct (file_pread o2 (Some h2) p (off f2)) as [[n p'] e].
    simpl. split; [reflexivity|]. unfold view, set_off. simpl.
    rewrite F1, F2, Hc. reflexivity.
  - destruct (view_mem f1 f2 o1 o2 H F1) as (F2 & Hb & Ho).
    unfold Read, copyBuffer. monad_unfold. rewrite F1, F2, Hb, Ho.
    destruct (Z.of_nat (go_len (buf f2)) <=? off f2)%Z.
    + simpl. auto.
    + rewrite Hb, Ho.
      destruct (reslice _ _ _) as [sl| |]; simpl; auto.
      split; [reflexivity|]. unfold view, set_off. simpl.
      rewrite F1, F2, Hb. reflexivity.
Qed.

(** [Rewind] depends only on the view of the receiver, and keeps views equal. *)
Lemma Rewind_view_det : view_det Rewind.
Proof.
  intros [f1 o1] [f2 o2] H.
  destruct (file f1) as [h1|] eqn:F1.
  - destruct (view_file f1 f2 o1 o2 h1 H F1) as (h2 & F2 & Hc & Ho).
    unfold Rewind. monad_unfold. rewrite F1, F2.
    pose proof (file_seek_zero_err h1 o1) as E1.
    pose proof (file_seek_zero_err h2 o2) as E2.
    pose proof (file_seek_contents (Some h1) 0 o1 h1) as C1.
    pose proof (file_seek_contents (Some h2) 0 o2 h2) as C2.
    destruct (file_seek (Some h1) 0 o1) as [e1 o1'],
             (file_seek (Some h2) 0 o2) as [e2 o2']. simpl in *.
    split; [rewrite E1, E2, Hc; reflexivity|].
    unfold view, set_off. simpl. rewrite F1, F2, C1, C2, Hc. reflexivity.
  - destruct (view_mem f1 f2 o1 o2 H F1) as (F2 & Hb & Ho).
    unfold Rewind. monad_unfold. rewrite F1, F2. simpl.
    split; [reflexivity|]. unfold view, set_off. simpl.
    rewrite F1, F2, Hb. reflexivity.
Qed.

Lemma read_seq_view_det (ps : list (list Byte.byte)) : view_det (read_seq ps).
Proof.
  induction ps as [|p ps IH]; simpl.
  - apply view_det_ret.
  - apply view_det_bind; [apply Read_view_det|intros r].
    apply view_det_bind; [exact IH|intros rs]. apply view_det_ret.
Qed.

Lemma WriteTo_contents (w : sink) (f : Filebuf) (o : osys) r f' o' h :
  WriteTo w (f, o) = Ret (r, (f', o')) -> fd_contents o' h = fd_contents o h.
Proof.
  unfold WriteTo. monad_unfold. destruct (file f) as [fd|].
  - pose proof (file_seek_contents (Some fd) (off f) o h) as C1.
    destruct (file_seek _ _ _) as [[err|] o1]; simpl in C1.
    + intros E; inversion E; subst. exact C1.
    + pose proof (file_read_rest_contents (Some fd) o1 h) as C2.
      destruct (file_read_rest _ _) as [[d e] o2]. simpl in C2.
      intros E; inversion E; subst. congruence.
  - destruct (reslice _ _ _); intros E; inversion E; subst; reflexivity.
Qed.

Lemma Rewind_contents (f : Filebuf) (o : osys) e f' o' h :
  Rewind (f, o) = Ret (e, (f', o')) -> fd_contents o' h = fd_contents o h.
Proof.
  unfold Rewind. monad_unfold. destruct (file f) as [fd|].
  - pose proof (file_seek_contents (Some fd) 0 o h) as C1.
    destruct (file_seek _ _ _) as [e1 o1]. simpl in C1.
    intros E; inversion E; subst. exact C1.
  - intros E; inversion E; subst. reflexivity.
Qed.

Lemma Close_contents (f : Filebuf) (o : osys) e f' o' h :
  file f <> Some h -> Close (f, o) = Ret (e, (f', o')) ->
  fd_contents o' h = fd_contents o h.
Proof.
  unfold Close. monad_unfold. intros Hf. destruct (file f) as [fd|] eqn:F.
  - pose proof (file_close_contents (Some fd) o h Hf) as C1.
    destruct (file_close _ _) as [e1 o1]. simpl in C1.
    intros E; inversion E; subst. exact C1.
  - intros E; inversion E; subst. reflexivity.
Qed.

(** A reader operation keeps the descriptor of the receiver and the
    contents behind every other descriptor. *)
Lemma exec_reader_frame grow op (f : Filebuf) (o : osys) e f' o' h :
  reader_op op = true -> file f <> Some h ->
  exec grow op (f, o) = Ret (e, (f', o')) ->
  file f' = file f /\ fd_contents o' h = fd_contents o h.
Proof.
  intros Hr Hf. destruct op; simpl in Hr; try discriminate; unfold exec; monad_unfold.
  - destruct (Read p (f, o)) as [[[[n p'] e1] [f1 o1]]| |] eqn:E; try discriminate.
    intros H; inversion H; subst. apply Read_frame in E as [-> [z ->]]. auto.
  - rewrite ReadAt_unfold.
    destruct (Read p (set_off f pos, o)) as [[x [f1 o1]]| |] eqn:E; try discriminate.
    apply Read_frame in E as [-> _].
    destruct x as [[n p'] e1]. intros H; inversion H; subst; auto.
  - destruct (WriteTo w (f, o)) as [[[[n e1] w1] [f1 o1]]| |] eqn:E; try discriminate.
    intros H; inversion H; subst.
    pose proof (WriteTo_contents _ _ _ _ _ _ h E). apply WriteTo_frame in E.
    subst. auto.
  - intros H. pose proof (Rewind_contents _ _ _ _ _ h H).
    apply Rewind_frame in H. subst. auto.
  - intros H. pose proof (Close_contents _ _ _ _ _ h Hf H).
    apply Close_frame in H as [->|[H1 ->]]; auto.
Qed.

Lemma run_reader_frame grow ops (f : Filebuf) (o : osys) es f' o' h :
  forallb reader_op ops = true -> file f <> Some h ->
  run grow ops (f, o) = Ret (es, (f', o')) ->
  file f' = file f /\ fd_contents o' h = fd_contents o h.
Proof.
  revert f o es. induction ops as [|op ops IH]; intros f o es Hr Hf; simpl.
  - intros E; inversion E; subst. auto.
  - apply andb_prop in Hr as [Hr1 Hr2]. monad_unfold.
    destruct (exec grow op (f, o)) as [[e [f1 o1]]| |] eqn:E; try discriminate.
    destruct (exec_reader_frame grow op f o e f1 o1 h Hr1 Hf E) as [F1 C1].
    destruct (run grow ops (f1, o1)) as [[es1 [f2 o2]]| |] eqn:E2; try discriminate.
    intros H; inversion H; subst.
    destruct (IH f1 o1 es1 Hr2 ltac:(congruence) E2) as [F2 C2]. split; congruence.
Qed.

(** After a successful [Clone], the clone sees what the original sees, and
    a file-backed clone has a descriptor of its own. *)
Lemma Clone_cases (f c f1 : Filebuf) (o o1 : osys) :
  Clone (f, o) = Ret ((Some c, None), (f1, o1)) ->
  f1 = f /\ off c = off f /\ view (c, o1) = view (f, o1) /\
  ((file f = None /\ file c = None) \/
   exists h h', file f = Some h /\ file c = Some h' /\ h <> h').
Proof.
  unfold Clone. monad_unfold. destruct (file f) as [h|] eqn:F.
  - unfold file_dup. destruct (nth_error (fds o) h) as [[d|]|] eqn:Ed;
      try (intros E; inversion E; fail).
    destruct (dup_fails (flt o)); [intros E; inversion E|].
    simpl. intros E; inversion E; subst. clear E.
    assert (Hlt : h < length (fds o))
      by (apply nth_error_Some; congruence).
    unfold set_file, view; simpl. rewrite F. repeat split.
    + f_equal. f_equal. unfold fd_contents, desc_of, set_fds. simpl.
      rewrite nth_error_app2, Nat.sub_diag by lia. simpl.
      rewrite nth_error_app1 by lia. rewrite Ed. reflexivity.
    + right. exists h, (length (fds o)). repeat split. lia.
  - intros E; inversion E; subst. repeat split; auto.
Qed.

(** *** The fill loop of [ReadFrom] *)

Lemma src_read_length (r : src) k m d e r' :
  src_read r k = (m, d, e, r') -> length d = m /\ m <= k.
Proof.
  unfold src_read. destruct (sdata r) as [|x l] eqn:E.
  - intros H; inversion H; subst. simpl. lia.
  - intros H; inversion H; subst. rewrite length_firstn. cbn [length]. split; lia.
Qed.

(** The read window [f.buf[len(f.buf) : cap(f.buf)-len(f.buf)]] is out of
    range as soon as the region is more than half full. *)
Lemma fill_loop_window_panics fuel r tot (f : Filebuf) (o : osys) (b : slice) :
  buf f = Some b -> scap b < 2 * slen b ->
  fill_loop (S fuel) r tot (f, o) = Panic "slice bounds out of range".
Proof.
  intros Hb Hlt. simpl. monad_unfold. rewrite Hb. simpl.
  unfold reslice.
  replace ((0 <=? Z.of_nat (slen b))%Z
           && (Z.of_nat (slen b) <=? Z.of_nat (scap b) - Z.of_nat (slen b))%Z
           && (Z.of_nat (scap b) - Z.of_nat (slen b) <=? Z.of_nat (scap b))%Z)
    with false by (symmetry;
                   rewrite (proj2 (Z.leb_gt (Z.of_nat (slen b))
                                     (Z.of_nat (scap b) - Z.of_nat (slen b)))) by lia;
                   rewrite andb_false_r; reflexivity).
  reflexivity.
Qed.

(** One pass of the fill loop from an empty region of capacity [N] that
    the source does not fill: [m] bytes land in the region and the loop
    goes on. *)
Lemma fill_loop_first fuel r (f : Filebuf) (o : osys) N m d r' :
  buf f = Some (mkSlice (repeat Byte.x00 N) 0) ->
  src_read r N = (m, d, None, r') -> m < N ->
  fill_loop (S fuel) r 0 (f, o) =
  fill_loop fuel r' (wrap64 (Z.of_nat m))
    (set_buf f (Some (mkSlice (write_at (repeat Byte.x00 N) 0 d) m)), o).
Proof.
  intros Hb Hr Hm. destruct (src_read_length r N m d None r' Hr) as [Hd _].
  simpl. monad_unfold. rewrite Hb. simpl.
  change 0%Z with (Z.of_nat 0). rewrite Z.sub_0_r.
  rewrite reslice_ok0 by (unfold scap; simpl; rewrite repeat_length; lia).
  unfold scap. simpl. rewrite repeat_length, Hr.
  change (Z.of_nat 0) with 0%Z.
  rewrite reslice_ok0
    by (unfold scap; simpl; rewrite write_at_length; rewrite ?repeat_length; lia).
  simpl. rewrite write_at_length by (rewrite repeat_length; lia).
  rewrite repeat_length.
  replace (m =? N) with false by (symmetry; apply Nat.eqb_neq; lia).
  reflexivity.
Qed.

(** [ReadFrom] on a fresh buffer with a positive threshold makes the region
    and runs the fill loop from it. *)
Lemma ReadFrom_New grow fuel r N (o : osys) :
  0 < N ->
  exists k, ReadFrom grow fuel r (New (Z.of_nat N), o) =
    bind (fill_loop fuel r 0) k
      (set_buf (New (Z.of_nat N)) (Some (mkSlice (repeat Byte.x00 N) 0)), o).
Proof.
  intros HN. unfold ReadFrom. monad_unfold. simpl.
  replace (Z.of_nat N =? 0)%Z with false by (symmetry; apply Z.eqb_neq; lia).
  rewrite make_bytes_ok by lia. rewrite Nat2Z.id.
  eexists. reflexivity.
Qed.

(** A first read that fills more than half of the region, but not all of it,
    makes the next pass of the fill loop fault. *)
Lemma ReadFrom_half_full_panics grow fuel N r m d r' (o : osys) :
  0 < N -> src_read r N = (m, d, None, r') -> N < 2 * m -> m < N ->
  ReadFrom grow (S (S fuel)) r (New (Z.of_nat N), o) =
  Panic "slice bounds out of range".
Proof.
  intros HN Hr H2 Hm. destruct (ReadFrom_New grow (S (S fuel)) r N o HN) as [k ->].
  unfold bind. rewrite (fill_loop_first (S fuel) r _ o N m d r') by auto.
  rewrite (fill_loop_window_panics fuel r' _ _ o
             (mkSlice (write_at (repeat Byte.x00 N) 0 d) m)); [reflexivity|reflexivity|].
  destruct (src_read_length r N m d None r' Hr) as [Hd _].
  unfold scap. simpl. rewrite write_at_length; rewrite repeat_length; lia.
Qed.

(** Once the region is exactly half full, the read window is empty: the
    source delivers nothing, without error, and the loop never ends. *)
Lemma fill_loop_stalls fuel (o : osys) :
  fill_loop fuel (mkSrc [Byte.x03; Byte.x04; Byte.x05] (Some 2)) 2 (fb_stall, o)
  = OutOfFuel.
Proof.
  induction fuel as [|fuel IH]; [reflexivity|].
  rewrite <- IH. reflexivity.
Qed.

(** *** Reading back *)

Lemma wrap64_id (z : Z) : (0 <= z < 2 ^ 63)%Z -> wrap64 z = z.
Proof.
  intros H. unfold wrap64. rewrite Z.mod_small by lia. lia.
Qed.

Lemma go_copy_firstn (dst src : list Byte.byte) :
  let n := Nat.min (length dst) (length src) in
  firstn n (go_copy dst src) = firstn n src.
Proof.
  intros n. unfold go_copy. fold n.
  assert (Hl : length (firstn n src) = n)
    by (rewrite length_firstn; unfold n; lia).
  rewrite firstn_app, Hl, Nat.sub_diag, firstn_O, app_nil_r, firstn_firstn,
    Nat.min_id. reflexivity.
Qed.

Lemma firstn_skipn_firstn (B : list Byte.byte) i m s :
  i + m <= s -> firstn m (skipn i B) = firstn m (skipn i (firstn s B)).
Proof.
  intros H. rewrite skipn_firstn_comm, firstn_firstn, Nat.min_l by lia.
  reflexivity.
Qed.

Lemma holds_data_set_off (f : Filebuf) (o : osys) D z :
  holds_data (f, o) D -> holds_data (set_off f z, o) D.
Proof. unfold holds_data, set_off. simpl. auto. Qed.

Lemma elems_length (s : slice) : slen s <= scap s -> length (elems s) = slen s.
Proof. unfold elems, scap. intros H. rewrite length_firstn. lia. Qed.

(** One [Read] with a non-empty destination at cursor [i]: [n] bytes, those
    of [D] at [i], and either [io.EOF] with everything left consumed, or no
    error and at least one byte. *)
Lemma Read_step (f : Filebuf) (o : osys) (p D : list Byte.byte) (i : nat) :
  holds_data (f, o) D -> off f = Z.of_nat i -> i <= length D ->
  (Z.of_nat (length D) < 2 ^ 63)%Z -> 0 < length p ->
  exists n p' e,
    Read p (f, o) = Ret ((Z.of_nat n, p', e), (set_off f (Z.of_nat (i + n)), o)) /\
    i + n <= length D /\ firstn n p' = firstn n (skipn i D) /\
    ((e = Some EOF /\ i + n = length D) \/ (e = None /\ 0 < n)).
Proof.
  intros Hd Hoff Hi Hmax Hp. unfold holds_data in Hd.
  destruct (file f) as [h|] eqn:F.
  - unfold fd_contents in Hd.
    destruct (desc_of o h) as [[d of]|] eqn:Ed; [|discriminate].
    injection Hd as Hc.
    set (n := Nat.min (length p) (length D - i)).
    exists n, (go_copy p (skipn i D)), (if n <? length p then Some EOF else None).
    unfold Read. monad_unfold. rewrite F. unfold file_pread. rewrite Ed, Hoff, Hc.
    replace (Z.of_nat i <? 0)%Z with false by (symmetry; apply Z.ltb_ge; lia).
    rewrite Nat2Z.id, length_skipn. fold n.
    rewrite wrap64_id by lia. rewrite <- Nat2Z.inj_add.
    split; [reflexivity|]. split; [unfold n; lia|]. split.
    + pose proof (go_copy_firstn p (skipn i D)) as G. simpl in G.
      rewrite length_skipn in G. exact G.
    + destruct (Nat.ltb_spec n (length p)); [left|right]; unfold n in *; split; auto; lia.
  - destruct Hd as [Hwf HD]. unfold go_len, go_cap in *.
    set (b := nil_view (buf f)) in *.
    assert (HlenD : length D = slen b) by (rewrite <- HD; apply elems_length; auto).
    destruct (Nat.eq_dec i (length D)) as [Heq|Hne].
    + exists 0, p, (Some EOF).
      unfold Read. monad_unfold. rewrite F. fold b. unfold go_len. fold b.
      rewrite Hoff, <- HlenD, Heq, Z.leb_refl.
      rewrite Nat.add_0_r, <- Heq, <- Hoff, set_off_same.
      split; [reflexivity|]. split; [lia|]. split; [reflexivity|]. left. auto.
    + set (n := Nat.min (length p) (length D - i)).
      exists n, (go_copy p (firstn n (skipn i (backing b)))), None.
      assert (Hres : forall end1, Z.of_nat (i + n) = end1 ->
                reslice b (off f) end1 = Ret (mkSlice (skipn i (backing b)) n)).
      { intros end1 <-. rewrite Hoff. unfold scap in *.
        rewrite reslice_ok by (unfold scap, n; lia). f_equal. f_equal. lia. }
      unfold Read, copyBuffer. monad_unfold. rewrite F. fold b. unfold go_len. fold b.
      replace (Z.of_nat (slen b) <=? off f)%Z with false
        by (symmetry; apply Z.leb_gt; lia).
      fold b.
      destruct (Z.ltb_spec (Z.of_nat (slen b)) (off f + Z.of_nat (length p))).
      * rewrite (Hres (Z.of_nat (slen b))) by (unfold n; lia).
        replace (Z.of_nat (slen b) - off f)%Z with (Z.of_nat n) by (unfold n; lia).
        rewrite wrap64_id by lia. rewrite Hoff, <- Nat2Z.inj_add.
        split; [reflexivity|]. split; [unfold n; lia|].
        split; [|right; split; [reflexivity|unfold n; lia]].
        pose proof (go_copy_firstn p (firstn n (skipn i (backing b)))) as G.
        simpl in G. unfold elems. simpl.
        rewrite length_firstn, length_skipn in G. unfold scap in *.
        replace (Nat.min (length p) (Nat.min n (length (backing b) - i))) with n in G
          by (unfold n; lia).
        rewrite G, firstn_firstn, Nat.min_id, <- HD. unfold elems.
        apply firstn_skipn_firstn. unfold n; lia.
      * rewrite (Hres (off f + Z.of_nat (length p))%Z) by (unfold n; lia).
        replace (off f + Z.of_nat (length p) - off f)%Z with (Z.of_nat n)
          by (unfold n; lia).
        rewrite wrap64_id by lia. rewrite Hoff, <- Nat2Z.inj_add.
        split; [reflexivity|]. split; [unfold n; lia|].
        split; [|right; split; [reflexivity|unfold n; lia]].
        pose proof (go_copy_firstn p (firstn n (skipn i (backing b)))) as G.
        simpl in G. unfold elems. simpl.
        rewrite length_firstn, length_skipn in G. unfold scap in *.
        replace (Nat.min (length p) (Nat.min n (length (backing b) - i))) with n in G
          by (unfold n; lia).
        rewrite G, firstn_firstn, Nat.min_id, <- HD. unfold elems.
        apply firstn_skipn_firstn. unfold n; lia.
Qed.

(** Reading to [io.EOF] from cursor [i] returns the bytes of [D] from [i]. *)
Lemma read_all_data (fuel k : nat) (f : Filebuf) (o : osys) (D : list Byte.byte) (i : nat) :
  holds_data (f, o) D -> off f = Z.of_nat i -> i <= length D ->
  (Z.of_nat (length D) < 2 ^ 63)%Z -> 0 < k -> length D - i < fuel ->
  exists f', read_all fuel k (f, o) = Ret ((skipn i D, None), (f', o)).
Proof.
  revert f i. induction fuel as [|fuel IH]; intros f i Hd Hoff Hi Hmax Hk Hfuel;
    [lia|].
  destruct (Read_step f o (repeat Byte.x00 k) D i Hd Hoff Hi Hmax)
    as (n & p' & e & E & Hn & Hpre & He); [rewrite repeat_length; lia|].
  simpl. monad_unfold. rewrite E. rewrite Nat2Z.id.
  destruct He as [[-> Hend]|[-> Hpos]].
  - rewrite Hpre, firstn_all2 by (rewrite length_skipn; lia). eauto.
  - destruct (IH (set_off f (Z.of_nat (i + n))) (i + n)
                (holds_data_set_off f o D _ Hd) eq_refl ltac:(lia) Hmax Hk
                ltac:(lia)) as [f' E'].
    rewrite E'. exists f'. rewrite Hpre.
    rewrite Nat.add_comm, <- skipn_skipn, firstn_skipn. reflexivity.
Qed.

(** *** Writing without faults *)

Lemma write_at_end (l d : list Byte.byte) : write_at l (length l) d = l ++ d.
Proof.
  unfold write_at. rewrite firstn_all, Nat.sub_diag, skipn_all2 by lia.
  simpl. rewrite app_nil_r. reflexivity.
Qed.

Lemma desc_of_set_desc (o : osys) h d of x :
  desc_of o h = Some (d, of) ->
  desc_of (set_descs o (set_nth (descs o) d x)) h = Some (d, x).
Proof.
  intros E. pose proof (desc_of_descs o h d of E) as Hd.
  unfold desc_of in *. unfold set_descs. simpl.
  destruct (nth_error (fds o) h) as [[d'|]|]; try discriminate.
  destruct (nth_error (descs o) d') eqn:E'; [|discriminate].
  injection E as <- <-. rewrite nth_error_set_nth, Nat.eqb_refl, Hd. reflexivity.
Qed.

(** [f.Write(p)] on a descriptor positioned at the end of its file. *)
Lemma file_write_end (o : osys) h d (D p : list Byte.byte) :
  desc_of o h = Some (d, mkOfile D (length D)) -> write_fails (flt o) = false ->
  file_write (Some h) p o =
  ((Z.of_nat (length p), None),
   set_descs o (set_nth (descs o) d (mkOfile (D ++ p) (length (D ++ p))))).
Proof.
  intros E Hw. unfold file_write. rewrite E, Hw. simpl.
  rewrite write_at_end, length_app. reflexivity.
Qed.

Lemma no_faults_set_descs (o : osys) l : no_faults o -> no_faults (set_descs o l).
Proof. unfold no_faults, set_descs. simpl. auto. Qed.

(** [moveToFile] without faults: a new descriptor on a new file holding the
    bytes of the memory region, positioned at their end. *)
Lemma moveToFile_ok (f : Filebuf) (o : osys) :
  no_faults o ->
  exists o', moveToFile (f, o) = Ret (None, (set_file f (Some (length (fds o))), o')) /\
    no_faults o' /\
    exists d, desc_of o' (length (fds o)) =
              Some (d, mkOfile (elems (nil_view (buf f)))
                               (length (elems (nil_view (buf f))))).
Proof.
  intros Hnf. pose proof Hnf as (Hc & Hr & Hw).
  set (o1 := mkOS (descs o ++ [mkOfile [] 0]) (fds o ++ [Some (length (descs o))]) (flt o)).
  assert (Hd1 : desc_of o1 (length (fds o)) = Some (length (descs o), mkOfile [] 0)).
  { unfold desc_of, o1. simpl.
    rewrite nth_error_app2, Nat.sub_diag by lia. simpl.
    rewrite nth_error_app2, Nat.sub_diag by lia. reflexivity. }
  unfold moveToFile. monad_unfold. unfold os_tempfile. rewrite Hc. fold o1.
  unfold os_remove. replace (remove_fails (flt o1)) with false by (symmetry; exact Hr).
  rewrite (file_write_end o1 (length (fds o)) (length (descs o)) []
             (elems (nil_view (buf f))) Hd1 Hw).
  simpl. eexists. split; [reflexivity|]. split.
  - apply no_faults_set_descs. exact Hnf.
  - eexists. eapply desc_of_set_desc. exact Hd1.
Qed.

Lemma mem_wf_elems_length (f : Filebuf) :
  mem_wf f -> length (elems (nil_view (buf f))) = go_len (buf f).
Proof.
  intros (_ & _ & Hb). unfold go_len. destruct (buf f) as [s|]; simpl.
  - apply elems_length. tauto.
  - reflexivity.
Qed.

(** [Write] on a buffer without faults returns [(len(p), nil)] and leaves
    the buffer holding the bytes it held followed by [p]. *)
Lemma Write_writable (f : Filebuf) (o : osys) (D p : list Byte.byte) :
  writable (f, o) D ->
  exists f' o', Write p (f, o) = Ret ((Z.of_nat (length p), None), (f', o')) /\
    writable (f', o') (D ++ p) /\ MaxBufSize f' = MaxBufSize f.
Proof.
  intros [Hnf Hw]. destruct (file f) as [h|] eqn:F.
  - destruct Hw as [d Hd]. exists f.
    eexists. split.
    + unfold Write. monad_unfold. rewrite F.
      rewrite (file_write_end o h d D p Hd (proj2 (proj2 Hnf))). reflexivity.
    + split; [|reflexivity]. unfold writable. rewrite F.
      split; [apply no_faults_set_descs; exact Hnf|].
      eexists. eapply desc_of_set_desc. exact Hd.
  - destruct Hw as [Hwf HD].
    destruct (Z.leb_spec (Z.of_nat (go_len (buf f) + length p)) (MaxBufSize f))
      as [Hle|Hgt].
    + destruct (Write_mem f o p Hwf Hle) as (s' & E & Hlen & Hcap & Hel).
      exists (set_buf f (Some s')), o. split; [exact E|]. split; [|reflexivity].
      unfold writable. simpl. rewrite F. split; [exact Hnf|]. split.
      * apply mem_wf_set_buf; auto. rewrite Hlen.
        apply Nat2Z.inj_le. rewrite Hcap. exact Hle.
      * simpl. rewrite Hel, HD. reflexivity.
    + destruct (moveToFile_ok f o Hnf) as (o1 & E1 & Hnf1 & d & Hd1).
      exists (set_buf (set_file f (Some (length (fds o)))) None).
      eexists. split.
      * unfold Write. monad_unfold. rewrite F.
        replace ((0 <? MaxBufSize f)%Z &&
                 (MaxBufSize f <? Z.of_nat (go_len (buf f) + length p))%Z) with true
          by (symmetry; apply andb_true_iff; split; apply Z.ltb_lt;
              [destruct Hwf as (_ & H & _); exact H|exact Hgt]).
        rewrite E1. simpl.
        rewrite (file_write_end o1 _ d _ p Hd1 (proj2 (proj2 Hnf1))).
        reflexivity.
      * split; [|reflexivity]. unfold writable. simpl.
        split; [apply no_faults_set_descs; exact Hnf1|].
        eexists. rewrite <- HD. eapply desc_of_set_desc. exact Hd1.
Qed.

Lemma write_all_writable (ps : list (list Byte.byte)) (f : Filebuf) (o : osys) D :
  writable (f, o) D ->
  exists f' o', write_all ps (f, o) =
    Ret (map (fun p => (Z.of_nat (length p), None)) ps, (f', o')) /\
    writable (f', o') (D ++ concat ps).
Proof.
  revert f o D. induction ps as [|p ps IH]; intros f o D Hw.
  - exists f, o. simpl. rewrite app_nil_r. auto.
  - destruct (Write_writable f o D p Hw) as (f1 & o1 & E1 & Hw1 & _).
    destruct (IH f1 o1 (D ++ p) Hw1) as (f2 & o2 & E2 & Hw2).
    exists f2, o2. simpl. monad_unfold. rewrite E1, E2. split; [reflexivity|].
    rewrite app_assoc. exact Hw2.
Qed.

(** [Rewind] of a buffer holding [D] for writing: the cursor is 0 and [D]
    can be read back. *)
Lemma Rewind_writable (f : Filebuf) (o : osys) D :
  writable (f, o) D ->
  exists o', Rewind (f, o) = Ret (None, (set_off f 0, o')) /\
    holds_data (set_off f 0, o') D.
Proof.
  intros [Hnf Hw]. unfold Rewind. monad_unfold.
  destruct (file f) as [h|] eqn:F.
  - destruct Hw as [d Hd].
    pose proof (file_seek_contents (Some h) 0 o h) as C.
    unfold file_seek in *. rewrite Hd in *. simpl in *.
    eexists. split; [reflexivity|].
    unfold holds_data, set_off. simpl. rewrite F, C.
    unfold fd_contents. rewrite Hd. reflexivity.
  - destruct Hw as [Hwf HD]. exists o. split; [reflexivity|].
    unfold holds_data, set_off. simpl. rewrite F. split; [|exact HD].
    destruct Hwf as (_ & _ & Hb). unfold go_len, go_cap.
    destruct (buf f) as [s|]; simpl; [tauto|lia].
Qed.

(** *** Writing out *)

(** [WriteTo] writes the bytes of [D] from the cursor on and moves neither
    the cursor nor the data. *)
Lemma WriteTo_data (w : sink) (f : Filebuf) (o : osys) (D : list Byte.byte) (i : nat) :
  holds_data (f, o) D -> off f = Z.of_nat i -> i <= length D ->
  exists o', WriteTo w (f, o) =
    Ret ((Z.of_nat (length D - i), None, w ++ skipn i D), (f, o')) /\
    holds_data (f, o') D.
Proof.
  intros Hd Hoff Hi. unfold holds_data in Hd. unfold WriteTo. monad_unfold.
  destruct (file f) as [h|] eqn:F.
  - unfold fd_contents in Hd.
    destruct (desc_of o h) as [[d of]|] eqn:Ed; [|discriminate].
    injection Hd as Hc.
    set (o1 := set_descs o (set_nth (descs o) d (mkOfile (contents of) (Z.to_nat (off f))))).
    assert (E1 : file_seek (Some h) (off f) o = (None, o1)).
    { unfold file_seek. rewrite Ed.
      replace (off f <? 0)%Z with false by (symmetry; apply Z.ltb_ge; lia).
      reflexivity. }
    assert (Ed1 : desc_of o1 h = Some (d, mkOfile (contents of) (Z.to_nat (off f))))
      by (eapply desc_of_set_desc; exact Ed).
    rewrite E1. unfold file_read_rest. rewrite Ed1.
    exists (set_descs o1 (set_nth (descs o1) d
              (mkOfile (contents of) (Nat.max (Z.to_nat (off f)) (length (contents of)))))).
    split.
    + simpl. rewrite Hoff, Nat2Z.id, Hc, length_skipn. reflexivity.
    + unfold holds_data. rewrite F. unfold fd_contents.
      rewrite (desc_of_set_desc o1 h d _ _ Ed1). simpl. rewrite Hc. reflexivity.
  - destruct Hd as [Hwf HD]. unfold go_len, go_cap in *.
    set (b := nil_view (buf f)) in *.
    assert (HlenD : length D = slen b) by (rewrite <- HD; apply elems_length; auto).
    rewrite Hoff, reslice_ok by lia. simpl.
    exists o. split.
    + unfold elems at 1. simpl. rewrite <- skipn_firstn_comm. fold (elems b).
      rewrite HD, HlenD. reflexivity.
    + unfold holds_data. rewrite F. auto.
Qed.

(** *** Appending and filling *)

Lemma write_at_nil (l : list Byte.byte) i : i <= length l -> write_at l i [] = l.
Proof.
  intros H. unfold write_at. replace (i - length l) with 0 by lia. simpl.
  rewrite Nat.add_0_r. apply firstn_skipn.
Qed.

Lemma write_at_full (l d : list Byte.byte) : length d = length l -> write_at l 0 d = d.
Proof.
  intros H. unfold write_at. simpl. rewrite H, skipn_all. apply app_nil_r.
Qed.


Lemma fill_loop_drained fuel r tot (f : Filebuf) (o : osys) (b : slice) :
  buf f = Some b -> 2 * slen b <= scap b -> sdata r = [] ->
  fill_loop (S fuel) r tot (f, o) =
  Ret (inl (wrap64 (tot + 0), None, r),
       (set_buf f (Some (mkSlice (backing b) (slen b))), o)).
Proof.
  intros Hb H2 Hr. simpl. monad_unfold. rewrite Hb. simpl.
  rewrite <- Nat2Z.inj_sub by lia.
  rewrite reslice_ok by lia. simpl.
  unfold src_read. rewrite Hr. simpl.
  rewrite reslice_ok0 by (unfold scap; simpl; rewrite write_at_nil; unfold scap in *; lia).
  simpl. rewrite write_at_nil, Nat.add_0_r by (unfold scap in *; lia). reflexivity.
Qed.

Lemma fill_loop_full fuel r (f : Filebuf) (o : osys) N d r' :
  buf f = Some (mkSlice (repeat Byte.x00 N) 0) ->
  src_read r N = (N, d, None, r') ->
  fill_loop (S fuel) r 0 (f, o) = Ret (inr r', (set_buf f (Some (mkSlice d N)), o)).
Proof.
  intros Hb Hr. destruct (src_read_length r N N d None r' Hr) as [Hd _].
  simpl. monad_unfold. rewrite Hb. simpl.
  change 0%Z with (Z.of_nat 0). rewrite Z.sub_0_r.
  rewrite reslice_ok0 by (unfold scap; simpl; rewrite repeat_length; lia).
  unfold scap. simpl. rewrite repeat_length, Hr.
  change (Z.of_nat 0) with 0%Z.
  rewrite write_at_full by (rewrite repeat_length; exact Hd).
  rewrite reslice_ok0 by (unfold scap; simpl; lia).
  simpl. rewrite Hd, Nat.eqb_refl. reflexivity.
Qed.

Lemma mem_wf_set_off (f : Filebuf) z : mem_wf f -> mem_wf (set_off f z).
Proof. unfold mem_wf, set_off. simpl. auto. Qed.

(** ** Claims *)

(** C3 (code defect).  With [MaxBufSize = 0], documented as "memory only",
    the first non-empty [Write] makes a slice of capacity 0 in
    [appendBuffer] and then reslices it to [len(p)]: a bounds panic. *)
Theorem Write_zero_threshold_panics (p : list Byte.byte) (o : osys) :
  p <> [] -> Write p (New 0, o) = Panic "slice bounds out of range".
Proof.
  intros Hp. destruct p as [|b p]; [congruence|]. reflexivity.
Qed.

Lemma Write_zero_threshold_panics_witness :
  [Byte.x2a] <> [] /\
  Write [Byte.x2a] (New 0, mkOS [] [] (mkFaults false false false false))
  = Panic "slice bounds out of range".
Proof.
  split; [discriminate|].
  apply Write_zero_threshold_panics. discriminate.
Defined.

(** C1 (code defect, the one of C3).  The round trip with a zero
    threshold stops at the first [Write]. *)
Theorem roundtrip_zero_threshold_panics (o : osys) (fuel k : nat) :
  roundtrip [[Byte.x2a]] fuel k (New 0, o) = Panic "slice bounds out of range".
Proof. reflexivity. Qed.

(** C7.  [ReadAt p pos] gives exactly what [Read p] gives when the read
    offset is [pos], and leaves the buffer (read offset included) and the
    system as they were. *)
Theorem ReadAt_is_Read_at_pos (f : Filebuf) (o : osys) (p : list Byte.byte) (pos : Z) :
  ReadAt p pos (f, o) =
  match Read p (set_off f pos, o) with
  | Ret (r, _) => Ret (r, (f, o))
  | Panic msg => Panic msg
  | OutOfFuel => OutOfFuel
  end.
Proof. apply ReadAt_unfold. Qed.

(** C2.  With a positive threshold [T], writes of [T] bytes in total (in any
    number of calls) all succeed in memory and touch no file, while writes of
    [T + 1] bytes in total leave the buffer with a file (the temporary file
    being creatable). *)
Theorem threshold_boundary (T : Z) (o o' : osys) (ps qs : list (list Byte.byte)) :
  (0 < T)%Z ->
  Z.of_nat (length (concat ps)) = T ->
  Z.of_nat (length (concat qs)) = (T + 1)%Z ->
  create_fails (flt o') = false ->
  (exists f, write_all ps (New T, o) =
             Ret (map (fun p => (Z.of_nat (length p), None)) ps, (f, o)) /\
             file f = None) /\
  (exists rs f o'', write_all qs (New T, o') = Ret (rs, (f, o'')) /\ file f <> None).
Proof.
  intros HT Hps Hqs Hc.
  assert (Hwf : mem_wf (New T)) by (unfold mem_wf; simpl; auto).
  split.
  - destruct (write_all_mem ps (New T) o Hwf) as [f [E [[Hf _] _]]].
    { simpl. unfold go_len. simpl. lia. }
    eauto.
  - apply write_all_promote; auto. simpl. unfold go_len. simpl. lia.
Qed.

Lemma threshold_boundary_witness :
  (0 < 2)%Z /\ Z.of_nat (length (concat [[Byte.x01]; [Byte.x02]])) = 2%Z /\
  Z.of_nat (length (concat [[Byte.x01]; [Byte.x02; Byte.x03]])) = (2 + 1)%Z /\
  create_fails (flt os_ok) = false /\
  (exists f, write_all [[Byte.x01]; [Byte.x02]] (New 2, os_ok) =
             Ret (map (fun p => (Z.of_nat (length p), None)) [[Byte.x01]; [Byte.x02]],
                  (f, os_ok)) /\ file f = None) /\
  (exists rs f o'', write_all [[Byte.x01]; [Byte.x02; Byte.x03]] (New 2, os_ok)
                    = Ret (rs, (f, o'')) /\ file f <> None).
Proof.
  refine (conj _ (conj _ (conj _ (conj _ _)))); try reflexivity.
  apply (threshold_boundary 2 os_ok os_ok); reflexivity.
Defined.

(** C4, as stated, fails: a promotion that fails at the unlink step
    returns an error but leaves the temporary file installed, so the buffer
    is no longer in its prior, in-memory state. *)
Lemma promotion_failure_changes_state :
  exists r f' o', Write [Byte.x02] (fb_one, os_rm) = Ret (r, (f', o')) /\
    snd r = Some (Wrapf "cannot delete backing temporary file" ErrRemove) /\
    file fb_one = None /\ file f' = Some 0 /\ buf f' = buf fb_one.
Proof. do 3 eexists. split; [reflexivity|]. repeat split; reflexivity. Qed.

(** C4 (amended).  When [Write] must promote and the promotion fails, the
    call returns [(0, err)] and keeps the memory region and the read
    offset.  Only a failure to create the temporary file leaves the state as
    it was; a failure to unlink it or to copy the memory region into it
    leaves the new temporary file installed as [f.file]. *)
Theorem promotion_failure (f : Filebuf) (o : osys) (p : list Byte.byte) :
  file f = None -> (0 < MaxBufSize f)%Z ->
  (MaxBufSize f < Z.of_nat (go_len (buf f) + length p))%Z ->
  (create_fails (flt o) = true ->
   Write p (f, o) =
   Ret ((0%Z, Some (Wrapf "cannot open backing temporary file" ErrCreate)), (f, o))) /\
  (create_fails (flt o) = false ->
   forall r f' o', Write p (f, o) = Ret (r, (f', o')) ->
   forall ctx err, snd r = Some (Wrapf ctx err) ->
   fst r = 0%Z /\ f' = set_file f (Some (length (fds o))) /\
   buf f' = buf f /\ off f' = off f /\ file f' <> None).
Proof.
  intros Hfile Hpos Hgt.
  assert (Hw : Write p (f, o) = (e <- moveToFile ;;
                                 match e with
                                 | Some err => ret (0%Z, Some err)
                                 | None =>
                                     f' <- get_fb ;;
                                     put_fb (set_buf f' None) ;;
                                     os_do (file_write (file f') p)
                                 end) (f, o)).
  { unfold Write at 1. monad_unfold. rewrite Hfile.
    rewrite (proj2 (Z.ltb_lt _ _) Hpos), (proj2 (Z.ltb_lt _ _) Hgt). reflexivity. }
  split.
  - intros Hc. rewrite Hw. monad_unfold. rewrite moveToFile_create_fails by exact Hc.
    rewrite <- Hfile, set_file_same. reflexivity.
  - intros Hc r f' o' E ctx err Hr. rewrite Hw in E. monad_unfold.
    destruct (moveToFile_created_err f o Hc) as [e [o1 [Em He]]].
    rewrite Em in E. destruct He as [->|[ctx' [err' ->]]].
    + destruct (file_write _ _ _) as [[n [e'|]] o2] eqn:Ew; inversion E; subst.
      * simpl in Hr. inversion Hr; subst.
        exfalso. eapply file_write_unwrapped; eauto.
      * discriminate.
    + inversion E; subst. simpl. repeat split; auto. discriminate.
Qed.

Lemma promotion_failure_witness :
  file fb_one = None /\ (0 < MaxBufSize fb_one)%Z /\
  (MaxBufSize fb_one < Z.of_nat (go_len (buf fb_one) + length [Byte.x02]))%Z /\
  ((create_fails (flt os_rm) = true ->
    Write [Byte.x02] (fb_one, os_rm) =
    Ret ((0%Z, Some (Wrapf "cannot open backing temporary file" ErrCreate)),
         (fb_one, os_rm))) /\
   (create_fails (flt os_rm) = false ->
    forall r f' o', Write [Byte.x02] (fb_one, os_rm) = Ret (r, (f', o')) ->
    forall ctx err, snd r = Some (Wrapf ctx err) ->
    fst r = 0%Z /\ f' = set_file fb_one (Some (length (fds os_rm))) /\
    buf f' = buf fb_one /\ off f' = off fb_one /\ file f' <> None)).
Proof.
  refine (conj _ (conj _ (conj _ _))); try reflexivity.
  apply promotion_failure; reflexivity.
Defined.

(** C5, as stated, fails: from a fresh buffer, a [Write] that must promote
    while unlinking fails leaves both the file and the memory region
    holding data. *)
Lemma failed_promotion_two_representations :
  exists es f' o',
    run (fun _ n => n) [OpWrite [Byte.x01]; OpWrite [Byte.x02]] (New 1, os_rm)
    = Ret (es, (f', o')) /\
    file f' = Some 0 /\ buf f' <> None /\ elems (nil_view (buf f')) = [Byte.x01].
Proof.
  do 3 eexists. split; [reflexivity|].
  split; [reflexivity|]. split; [discriminate|reflexivity].
Qed.

(** C5 (amended).  Whatever the operations return, a buffer that has a file
    keeps it and its memory region is never changed again.  A file-backed
    buffer has no memory region in every state reached by operations of
    which none reported a promotion failing after the temporary file was
    created ("cannot delete" or "cannot copy" the temporary file). *)
Theorem representation_invariant (grow : nat -> nat -> nat) :
  (forall ops (f : Filebuf) (o : osys) es f' o',
     run grow ops (f, o) = Ret (es, (f', o')) ->
     file f <> None -> file f' = file f /\ buf f' = buf f) /\
  (forall ops (f : Filebuf) (o : osys) es f' o',
     run grow ops (f, o) = Ret (es, (f', o')) ->
     one_repr f -> Forall (fun e => ~ promotion_error e) es -> one_repr f').
Proof.
  split.
  - intros ops f o es f' o' H Hf. eapply run_sticky; eauto.
  - intros ops f o es f' o' H Hinv Hes. eapply run_one_repr; eauto.
Qed.

(** C6, as stated, fails: a file-backed [Read] whose destination reaches
    past the end of the data returns the bytes it found together with
    [io.EOF] (the semantics of [os.File.ReadAt]). *)
Lemma file_read_data_with_eof :
  result ((write_all [[Byte.x01; Byte.x02; Byte.x03]] ;; Rewind ;;
           Read [Byte.x00; Byte.x00; Byte.x00; Byte.x00]) (New 2, os_ok))
  = Ret (3%Z, [Byte.x01; Byte.x02; Byte.x03; Byte.x00], Some EOF).
Proof. reflexivity. Qed.

(** C6 (amended).  In memory, [Read] returns [io.EOF] with no bytes exactly
    when the offset is at or past the data; otherwise it returns
    [min(len(p), remaining)] bytes and no error.  On a file (open, offset not
    negative), [Read] returns [n = min(len(p), remaining)] bytes and reports
    [io.EOF] exactly when [n < len(p)]: with no bytes at the end, but also
    together with data when [p] reaches past the end; an empty [p] gets no
    [io.EOF] even at the end. *)
Theorem Read_end_of_stream :
  (forall (f : Filebuf) (o : osys) (p : list Byte.byte),
     file f = None -> (Z.of_nat (go_len (buf f)) <= off f)%Z ->
     Read p (f, o) = Ret ((0%Z, p, Some EOF), (f, o))) /\
  (forall (f : Filebuf) (o : osys) (p : list Byte.byte),
     file f = None -> go_len (buf f) <= go_cap (buf f) ->
     (0 <= off f < Z.of_nat (go_len (buf f)))%Z ->
     let n := Z.min (Z.of_nat (length p)) (Z.of_nat (go_len (buf f)) - off f) in
     exists p', Read p (f, o) = Ret ((n, p', None), (set_off f (wrap64 (off f + n)), o))) /\
  (forall (f : Filebuf) (o : osys) (p : list Byte.byte) fd d of,
     file f = Some fd -> desc_of o fd = Some (d, of) -> (0 <= off f)%Z ->
     let n := Nat.min (length p) (length (contents of) - Z.to_nat (off f)) in
     exists p', Read p (f, o) =
       Ret ((Z.of_nat n, p', if n <? length p then Some EOF else None),
            (set_off f (wrap64 (off f + Z.of_nat n)), o))).
Proof.
  split; [|split].
  - apply Read_mem_eof.
  - apply Read_mem_data.
  - apply Read_file.
Qed.

(** C8.  After a successful [Clone], whatever reader operations (reads,
    positioned reads, [WriteTo], [Rewind], [Close]) run on the original,
    including draining it, the clone reads from its own cursor exactly what
    it would have read right after [Clone]; and the original and the clone,
    both rewound, read the same contents. *)
Theorem Clone_independent (grow : nat -> nat -> nat) (f c f1 f2 : Filebuf)
    (o o1 o2 : osys) (ops : list op) (es : list (option error))
    (ps : list (list Byte.byte)) :
  Clone (f, o) = Ret ((Some c, None), (f1, o1)) ->
  forallb reader_op ops = true ->
  run grow ops (f1, o1) = Ret (es, (f2, o2)) ->
  result (read_seq ps (c, o2)) = result (read_seq ps (c, o1)) /\
  result ((Rewind ;; read_seq ps) (f1, o1)) = result ((Rewind ;; read_seq ps) (c, o1)).
Proof.
  intros HC Hr HR.
  destruct (Clone_cases f c f1 o o1 HC) as (-> & Hoff & Hv & Hcases).
  split.
  - apply same_out_result, read_seq_view_det.
    destruct Hcases as [[Hf Hc]|(h & h' & Hf & Hc & Hne)].
    + unfold view. rewrite Hc. reflexivity.
    + destruct (run_reader_frame grow ops f o1 es f2 o2 h' Hr
                  ltac:(congruence) HR) as [_ Hcont].
      unfold view. rewrite Hc, Hcont. reflexivity.
  - apply same_out_result.
    apply view_det_bind;
      [apply Rewind_view_det|intros _; apply read_seq_view_det|symmetry; exact Hv].
Qed.

Lemma Clone_independent_witness :
  Clone (fb_file3, os_file3 [Some 0])
    = Ret ((Some (set_file fb_file3 (Some 1)), None),
           (fb_file3, os_file3 [Some 0; Some 0])) /\
  forallb reader_op [OpRead [Byte.x00; Byte.x00]; OpWriteTo []; OpClose] = true /\
  run (fun _ n => n) [OpRead [Byte.x00; Byte.x00]; OpWriteTo []; OpClose]
      (fb_file3, os_file3 [Some 0; Some 0])
    = Ret ([None; None; None], (set_off fb_file3 2, os_file3 [None; Some 0])) /\
  result (read_seq [[Byte.x00; Byte.x00]; [Byte.x00; Byte.x00]]
            (set_file fb_file3 (Some 1), os_file3 [None; Some 0]))
  = result (read_seq [[Byte.x00; Byte.x00]; [Byte.x00; Byte.x00]]
              (set_file fb_file3 (Some 1), os_file3 [Some 0; Some 0])) /\
  result ((Rewind ;; read_seq [[Byte.x00; Byte.x00]; [Byte.x00; Byte.x00]])
            (fb_file3, os_file3 [Some 0; Some 0]))
  = result ((Rewind ;; read_seq [[Byte.x00; Byte.x00]; [Byte.x00; Byte.x00]])
              (set_file fb_file3 (Some 1), os_file3 [Some 0; Some 0])).
Proof.
  assert (H1 : Clone (fb_file3, os_file3 [Some 0])
    = Ret ((Some (set_file fb_file3 (Some 1)), None),
           (fb_file3, os_file3 [Some 0; Some 0]))) by reflexivity.
  assert (H2 : forallb reader_op
                 [OpRead [Byte.x00; Byte.x00]; OpWriteTo []; OpClose] = true)
    by reflexivity.
  assert (H3 : run (fun _ n => n) [OpRead [Byte.x00; Byte.x00]; OpWriteTo []; OpClose]
      (fb_file3, os_file3 [Some 0; Some 0])
    = Ret ([None; None; None], (set_off fb_file3 2, os_file3 [None; Some 0])))
    by reflexivity.
  split; [exact H1|]. split; [exact H2|]. split; [exact H3|].
  exact (Clone_independent (fun _ n => n) fb_file3 (set_file fb_file3 (Some 1))
           fb_file3 (set_off fb_file3 2) (os_file3 [Some 0]) (os_file3 [Some 0; Some 0])
           (os_file3 [None; Some 0]) _ _ [[Byte.x00; Byte.x00]; [Byte.x00; Byte.x00]]
           H1 H2 H3).
Defined.

(** C9, as stated, fails: with threshold 4 and a source that delivers six
    bytes three at a time, [ReadFrom] does not fill the region, promote it
    and return 6: its fill loop faults on the second pass. *)
Theorem ReadFrom_chunked_source_panics (grow : nat -> nat -> nat) (fuel : nat) (o : osys) :
  ReadFrom grow (S (S fuel)) src6 (New 4, o) = Panic "slice bounds out of range".
Proof.
  apply (ReadFrom_half_full_panics grow fuel 4 src6 3
           [Byte.x01; Byte.x02; Byte.x03]
           (mkSrc [Byte.x04; Byte.x05; Byte.x06] (Some 3)) o);
    [lia|reflexivity|lia|lia].
Qed.

(** C10, as stated, fails.  The read window of the fill loop is
    [f.buf[len : cap-len]], not [f.buf[len:cap]]: whenever a first read fills
    more than half of a region of capacity [N] without filling it (and
    without error), the next pass faults on a slice bound; and a source that
    leaves the region exactly half full is then offered an empty window,
    returns nothing without error, and the loop never terminates. *)
Theorem ReadFrom_fill_loop_unsafe :
  (forall (grow : nat -> nat -> nat) fuel N r m d r' (o : osys),
     0 < N -> src_read r N = (m, d, None, r') -> N < 2 * m -> m < N ->
     ReadFrom grow (S (S fuel)) r (New (Z.of_nat N), o) =
     Panic "slice bounds out of range") /\
  (forall (grow : nat -> nat -> nat) fuel (o : osys),
     ReadFrom grow fuel src5 (New 4, o) = OutOfFuel).
Proof.
  split.
  - exact ReadFrom_half_full_panics.
  - intros grow fuel o. destruct fuel as [|fuel]; [reflexivity|].
    change (New 4) with (New (Z.of_nat 4)).
    destruct (ReadFrom_New grow (S fuel) src5 4 o ltac:(lia)) as [k ->].
    unfold bind.
    replace (fill_loop (S fuel) src5 0 _)
      with (fill_loop fuel (mkSrc [Byte.x03; Byte.x04; Byte.x05] (Some 2)) 2 (fb_stall, o))
      by reflexivity.
    rewrite fill_loop_stalls. reflexivity.
Qed.

(** ** Further properties of the methods *)

(** Round trip for a positive threshold: on a system without faults, writing
    the chunks [ps] to [New(T)], rewinding and reading until [io.EOF] returns
    every [Write] as [(len(p), nil)] and gives back [concat ps], whether the
    data stayed in memory or moved to a file on the way. *)
Theorem roundtrip_positive_threshold (T : Z) (ps : list (list Byte.byte))
    (fuel k : nat) (o : osys) :
  (0 < T)%Z -> no_faults o -> 0 < k -> length (concat ps) < fuel ->
  (Z.of_nat (length (concat ps)) < 2 ^ 63)%Z ->
  result (roundtrip ps fuel k (New T, o)) =
  Ret (map (fun p => (Z.of_nat (length p), None)) ps, None, (concat ps, None)).
Proof.
  intros HT Hnf Hk Hfuel Hmax.
  assert (Hw0 : writable (New T, o) []).
  { unfold writable. simpl. split; [exact Hnf|]. split; [|reflexivity].
    unfold mem_wf. simpl. auto. }
  destruct (write_all_writable ps (New T) o [] Hw0) as (f1 & o1 & E1 & Hw1).
  destruct (Rewind_writable f1 o1 _ Hw1) as (o2 & E2 & Hd2). simpl in Hd2.
  destruct (read_all_data fuel k (set_off f1 0) o2 (concat ps) 0 Hd2 eq_refl
              ltac:(lia) Hmax Hk ltac:(lia)) as [f3 E3].
  unfold roundtrip. monad_unfold. rewrite E1, E2, E3. reflexivity.
Qed.

Lemma roundtrip_positive_threshold_witness :
  (0 < 2)%Z /\ no_faults os_ok /\ 0 < 2 /\
  length (concat [[Byte.x01]; [Byte.x02; Byte.x03]]) < 4 /\
  (Z.of_nat (length (concat [[Byte.x01]; [Byte.x02; Byte.x03]])) < 2 ^ 63)%Z /\
  result (roundtrip [[Byte.x01]; [Byte.x02; Byte.x03]] 4 2 (New 2, os_ok)) =
  Ret (map (fun p => (Z.of_nat (length p), None)) [[Byte.x01]; [Byte.x02; Byte.x03]],
       None, (concat [[Byte.x01]; [Byte.x02; Byte.x03]], None)).
Proof.
  assert (Hnf : no_faults os_ok) by (repeat split).
  split; [lia|]. split; [exact Hnf|]. split; [lia|]. split; [simpl; lia|].
  split; [simpl; lia|].
  apply (roundtrip_positive_threshold 2 [[Byte.x01]; [Byte.x02; Byte.x03]] 4 2 os_ok);
    [lia|exact Hnf|lia|simpl; lia|simpl; lia].
Defined.

(** Reading until [io.EOF] (as [io.Copy] does) from a cursor [i] inside the
    data returns exactly the bytes from [i] to the end, for a buffer in memory
    as well as for one backed by a file. *)
Theorem Read_until_EOF (fuel k : nat) (f : Filebuf) (o : osys)
    (D : list Byte.byte) (i : nat) :
  holds_data (f, o) D -> off f = Z.of_nat i -> i <= length D ->
  (Z.of_nat (length D) < 2 ^ 63)%Z -> 0 < k -> length D - i < fuel ->
  exists f', read_all fuel k (f, o) = Ret ((skipn i D, None), (f', o)).
Proof. apply read_all_data. Qed.

Lemma Read_until_EOF_witness :
  holds_data (fb_one, os_ok) [Byte.x01] /\ off fb_one = Z.of_nat 0 /\
  0 <= length [Byte.x01] /\ (Z.of_nat (length [Byte.x01]) < 2 ^ 63)%Z /\
  0 < 1 /\ length [Byte.x01] - 0 < 2 /\
  exists f', read_all 2 1 (fb_one, os_ok) = Ret ((skipn 0 [Byte.x01], None), (f', os_ok)).
Proof.
  assert (Hd : holds_data (fb_one, os_ok) [Byte.x01])
    by (simpl; split; [unfold go_len, go_cap, scap; simpl; lia|reflexivity]).
  split; [exact Hd|]. split; [reflexivity|]. split; [simpl; lia|].
  split; [simpl; lia|]. split; [lia|]. split; [simpl; lia|].
  apply (Read_until_EOF 2 1 fb_one os_ok [Byte.x01] 0 Hd);
    [reflexivity|simpl; lia|simpl; lia|lia|simpl; lia].
Defined.

(** [WriteTo] writes the unread bytes (from the cursor to the end) to the
    writer and returns their number; it moves neither the read cursor nor the
    data, so a second [WriteTo] writes the same bytes again. *)
Theorem WriteTo_unread_bytes (w : sink) (f : Filebuf) (o : osys)
    (D : list Byte.byte) (i : nat) :
  holds_data (f, o) D -> off f = Z.of_nat i -> i <= length D ->
  exists o', WriteTo w (f, o) =
    Ret ((Z.of_nat (length D - i), None, w ++ skipn i D), (f, o')) /\
    holds_data (f, o') D.
Proof. apply WriteTo_data. Qed.

Lemma WriteTo_unread_bytes_witness :
  holds_data (fb_one, os_ok) [Byte.x01] /\ off fb_one = Z.of_nat 0 /\
  0 <= length [Byte.x01] /\
  exists o', WriteTo [] (fb_one, os_ok) =
    Ret ((Z.of_nat (length [Byte.x01] - 0), None, [] ++ skipn 0 [Byte.x01]), (fb_one, o')) /\
    holds_data (fb_one, o') [Byte.x01].
Proof.
  assert (Hd : holds_data (fb_one, os_ok) [Byte.x01])
    by (simpl; split; [unfold go_len, go_cap, scap; simpl; lia|reflexivity]).
  split; [exact Hd|]. split; [reflexivity|]. split; [simpl; lia|].
  apply (WriteTo_unread_bytes [] fb_one os_ok [Byte.x01] 0 Hd);
    [reflexivity|simpl; lia].
Defined.



(** [Close] of a buffer in memory drops the region but keeps the read
    cursor: a later [Read] returns [io.EOF], and a later [WriteTo] writes
    nothing from cursor 0 but faults on a slice bound from any later cursor. *)
Theorem Close_mem_then_empty (f : Filebuf) (o : osys) (p : list Byte.byte) (w : sink) :
  file f = None -> (0 <= off f)%Z ->
  Close (f, o) = Ret (None, (set_buf f None, o)) /\
  result (Read p (set_buf f None, o)) = Ret (0%Z, p, Some EOF) /\
  (off f = 0%Z -> result (WriteTo w (set_buf f None, o)) = Ret (0%Z, None, w)) /\
  ((0 < off f)%Z -> WriteTo w (set_buf f None, o) = Panic "slice bounds out of range").
Proof.
  intros F Hoff. split; [|split; [|split]].
  - unfold Close. monad_unfold. rewrite F. reflexivity.
  - unfold Read. monad_unfold. simpl. rewrite F. unfold go_len. simpl.
    rewrite (proj2 (Z.leb_le _ _) Hoff). reflexivity.
  - intros H0. unfold WriteTo. monad_unfold. simpl. rewrite F, H0. simpl.
    unfold elems. simpl. rewrite app_nil_r. reflexivity.
  - intros Hpos. unfold WriteTo. monad_unfold. simpl. rewrite F.
    unfold reslice. simpl.
    replace (off f <=? 0)%Z with false by (symmetry; apply Z.leb_gt; lia).
    rewrite andb_false_r. reflexivity.
Qed.

Lemma Close_mem_then_empty_witness :
  file (set_off fb_one 1) = None /\ (0 <= off (set_off fb_one 1))%Z /\
  Close (set_off fb_one 1, os_ok) = Ret (None, (set_buf (set_off fb_one 1) None, os_ok)) /\
  result (Read [Byte.x00] (set_buf (set_off fb_one 1) None, os_ok)) =
    Ret (0%Z, [Byte.x00], Some EOF) /\
  (off (set_off fb_one 1) = 0%Z ->
   result (WriteTo [] (set_buf (set_off fb_one 1) None, os_ok)) = Ret (0%Z, None, [])) /\
  ((0 < off (set_off fb_one 1))%Z ->
   WriteTo [] (set_buf (set_off fb_one 1) None, os_ok) = Panic "slice bounds out of range").
Proof.
  split; [reflexivity|]. split; [simpl; lia|].
  apply (Close_mem_then_empty (set_off fb_one 1) os_ok [Byte.x00] []);
    [reflexivity|simpl; lia].
Defined.

(** [Rewind] resets the file position of a file-backed buffer, so a later
    [Write] overwrites the file from its start; in memory, [Write] after
    [Rewind] still appends after the data. *)
Theorem Rewind_then_Write :
  (forall (f : Filebuf) (o : osys) (h : nat) (D p : list Byte.byte),
     file f = Some h -> writable (f, o) D ->
     exists o', (Rewind ;; Write p) (f, o) =
                Ret ((Z.of_nat (length p), None), (set_off f 0, o')) /\
                fd_contents o' h = Some (p ++ skipn (length p) D)) /\
  (forall (f : Filebuf) (o : osys) (D p : list Byte.byte),
     file f = None -> writable (f, o) D ->
     (Z.of_nat (length D + length p) <= MaxBufSize f)%Z ->
     exists f', (Rewind ;; Write p) (f, o) =
                Ret ((Z.of_nat (length p), None), (f', o)) /\
                off f' = 0%Z /\ elems (nil_view (buf f')) = D ++ p).
Proof.
  split.
  - intros f o h D p F Hw. unfold writable in Hw. rewrite F in Hw.
    destruct Hw as [Hnf [d Hd]].
    set (o1 := set_descs o (set_nth (descs o) d (mkOfile D 0))).
    assert (Hd1 : desc_of o1 h = Some (d, mkOfile D 0))
      by (eapply desc_of_set_desc; exact Hd).
    exists (set_descs o1 (set_nth (descs o1) d
              (mkOfile (write_at D 0 p) (0 + length p)))).
    split.
    + unfold Rewind, Write. monad_unfold. rewrite F. simpl.
      unfold file_seek. rewrite Hd. simpl. fold o1. rewrite F.
      unfold file_write. rewrite Hd1.
      replace (write_fails (flt o1)) with false
        by (symmetry; destruct Hnf as (_ & _ & Hw); exact Hw).
      reflexivity.
    + unfold fd_contents. rewrite (desc_of_set_desc o1 h d _ _ Hd1). simpl.
      unfold write_at. simpl. reflexivity.
  - intros f o D p F Hw Hle. unfold writable in Hw. rewrite F in Hw.
    destruct Hw as [Hnf [Hwf HD]].
    assert (Hlen : go_len (buf f) = length D)
      by (rewrite <- HD; symmetry; apply mem_wf_elems_length; exact Hwf).
    destruct (Write_mem (set_off f 0) o p (mem_wf_set_off f 0 Hwf))
      as (s' & E & _ & _ & Hel); [simpl; rewrite Hlen; exact Hle|].
    exists (set_buf (set_off f 0) (Some s')). split.
    + unfold Rewind. monad_unfold. rewrite F. simpl. exact E.
    + split; [reflexivity|]. simpl. rewrite Hel. simpl. rewrite HD. reflexivity.
Qed.

(** A negative position in [ReadAt] faults on a slice bound in memory and
    is reported as an error on a file, the cursor being kept. *)
Theorem ReadAt_negative_pos (f : Filebuf) (o : osys) (p : list Byte.byte) (pos : Z) :
  (pos < 0)%Z ->
  (file f = None -> ReadAt p pos (f, o) = Panic "slice bounds out of range") /\
  (forall h, file f = Some h -> fd_contents o h <> None ->
     ReadAt p pos (f, o) = Ret ((0%Z, p, Some ErrNegOffset), (f, o))).
Proof.
  intros Hneg. split.
  - intros F. rewrite ReadAt_unfold. unfold Read, copyBuffer. monad_unfold.
    simpl. rewrite F.
    replace (Z.of_nat (go_len (buf f)) <=? pos)%Z with false
      by (symmetry; apply Z.leb_gt; lia).
    simpl. unfold reslice.
    replace (0 <=? pos)%Z with false by (symmetry; apply Z.leb_gt; lia).
    reflexivity.
  - intros h F Hc. rewrite ReadAt_unfold. unfold Read. monad_unfold. simpl.
    rewrite F. unfold file_pread. unfold fd_contents in Hc.
    destruct (desc_of o h) as [[d of]|]; [|contradiction].
    simpl. replace (pos <? 0)%Z with true by (symmetry; apply Z.ltb_lt; lia).
    reflexivity.
Qed.

Lemma ReadAt_negative_pos_witness :
  (-1 < 0)%Z /\
  (file fb_one = None ->
   ReadAt [Byte.x00] (-1) (fb_one, os_ok) = Panic "slice bounds out of range") /\
  (forall h, file fb_one = Some h -> fd_contents os_ok h <> None ->
     ReadAt [Byte.x00] (-1) (fb_one, os_ok) =
     Ret ((0%Z, [Byte.x00], Some ErrNegOffset), (fb_one, os_ok))).
Proof.
  split; [lia|]. apply (ReadAt_negative_pos fb_one os_ok [Byte.x00] (-1)). lia.
Defined.





(** Fill then promote, for a source that fills every buffer it is given
    (like [bytes.Reader]) and holds at least [N] bytes: from [New(N)],
    [ReadFrom] fills the region in one read, moves it to a temporary file,
    copies the rest of the source there and returns the total; the buffer
    ends up file-backed holding all the bytes, also when the source has
    exactly [N] bytes (where [Write] would have stayed in memory). *)
Theorem ReadFrom_fills_then_promotes (grow : nat -> nat -> nat) (fuel N : nat)
    (data : list Byte.byte) (o : osys) :
  0 < N -> N <= length data -> (Z.of_nat (length data) < 2 ^ 63)%Z -> no_faults o ->
  exists f' o', ReadFrom grow (S fuel) (mkSrc data None) (New (Z.of_nat N), o) =
    Ret ((Z.of_nat (length data), None, mkSrc [] None), (f', o')) /\
    file f' <> None /\ buf f' = None /\ writable (f', o') data.
Proof.
  intros HN Hle Hmax Hnf.
  set (f0 := set_buf (New (Z.of_nat N)) (Some (mkSlice (repeat Byte.x00 N) 0))).
  set (d := firstn N data).
  assert (Hr : src_read (mkSrc data None) N = (N, d, None, mkSrc (skipn N data) None)).
  { unfold src_read. simpl. destruct data as [|x l]; [simpl in Hle; lia|].
    replace (Nat.min N (Nat.min N (length (x :: l)))) with N by lia. reflexivity. }
  assert (Hd : length d = N) by (unfold d; rewrite length_firstn; lia).
  pose proof (fill_loop_full fuel (mkSrc data None) f0 o N d _ eq_refl Hr) as E1.
  set (f1 := set_buf f0 (Some (mkSlice d N))) in E1.
  destruct (moveToFile_ok f1 o Hnf) as (o1 & E2 & Hnf1 & dd & Hdd).
  assert (Hel : elems (nil_view (buf f1)) = d)
    by (unfold elems; simpl; rewrite <- Hd; apply firstn_all).
  rewrite Hel in Hdd.
  pose proof (file_write_end o1 _ dd d (skipn N data) Hdd (proj2 (proj2 Hnf1))) as E3.
  exists (set_buf (set_file f1 (Some (length (fds o)))) None).
  eexists. split.
  - unfold ReadFrom. monad_unfold. cbn -[fill_loop moveToFile copy_to_file make_bytes].
    replace (Z.of_nat N =? 0)%Z with false by (symmetry; apply Z.eqb_neq; lia).
    rewrite make_bytes_ok by lia. rewrite Nat2Z.id. cbn -[fill_loop moveToFile copy_to_file]. fold f0.
    rewrite E1. simpl. rewrite E2. simpl. unfold copy_to_file. monad_unfold. simpl.
    rewrite E3. simpl. unfold go_len. simpl.
    rewrite wrap64_id
      by (rewrite length_skipn; split; [lia|]; rewrite <- Nat2Z.inj_add;
          replace (length data - N + N) with (length data) by lia; exact Hmax).
    rewrite length_skipn, <- Nat2Z.inj_add.
    replace (length data - N + N) with (length data) by lia. reflexivity.
  - split; [simpl; discriminate|]. split; [reflexivity|].
    unfold writable. simpl. split; [apply no_faults_set_descs; exact Hnf1|].
    eexists. assert (Heq : d ++ skipn N data = data) by apply firstn_skipn. rewrite Heq.
    eapply desc_of_set_desc. exact Hdd.
Qed.

Lemma ReadFrom_fills_then_promotes_witness :
  0 < 4 /\ 4 <= length (sdata src5) /\ (Z.of_nat (length (sdata src5)) < 2 ^ 63)%Z /\
  no_faults os_ok /\
  exists f' o', ReadFrom (fun _ n => n) 1 (mkSrc (sdata src5) None) (New (Z.of_nat 4), os_ok) =
    Ret ((Z.of_nat (length (sdata src5)), None, mkSrc [] None), (f', o')) /\
    file f' <> None /\ buf f' = None /\ writable (f', o') (sdata src5).
Proof.
  assert (Hnf : no_faults os_ok) by (repeat split).
  split; [lia|]. split; [simpl; lia|]. split; [simpl; lia|]. split; [exact Hnf|].
  apply (ReadFrom_fills_then_promotes (fun _ n => n) 0 4 (sdata src5) os_ok);
    [lia|simpl; lia|simpl; lia|exact Hnf].
Defined.

(** A source that fills every buffer it is given and holds at most half of
    [N] bytes: from [New(N)], [ReadFrom] reads it in memory (a first read,
    then [io.EOF] on the next) and returns its length and no error. *)
Theorem ReadFrom_short_source_in_memory (grow : nat -> nat -> nat) (fuel N : nat)
    (data : list Byte.byte) (o : osys) :
  0 < N -> (Z.of_nat N < 2 ^ 63)%Z -> 2 * length data <= N ->
  exists f', ReadFrom grow (S (S fuel)) (mkSrc data None) (New (Z.of_nat N), o) =
    Ret ((Z.of_nat (length data), None, mkSrc [] None), (f', o)) /\
    file f' = None /\ mem_wf f' /\ elems (nil_view (buf f')) = data.
Proof.
  intros HN HNmax H2.
  set (f0 := set_buf (New (Z.of_nat N)) (Some (mkSlice (repeat Byte.x00 N) 0))).
  assert (Hunf : forall res s',
     fill_loop (S (S fuel)) (mkSrc data None) 0 (f0, o) = Ret (inl res, s') ->
     ReadFrom grow (S (S fuel)) (mkSrc data None) (New (Z.of_nat N), o) = Ret (res, s')).
  { intros res s' E. unfold ReadFrom. monad_unfold. cbn -[fill_loop moveToFile copy_to_file make_bytes].
    replace (Z.of_nat N =? 0)%Z with false by (symmetry; apply Z.eqb_neq; lia).
    rewrite make_bytes_ok by lia. rewrite Nat2Z.id. cbn -[fill_loop moveToFile copy_to_file]. fold f0.
    rewrite E. reflexivity. }
  destruct data as [|x l] eqn:Edata.
  - rewrite (fill_loop_drained (S fuel) (mkSrc [] None) 0 f0 o
               (mkSlice (repeat Byte.x00 N) 0) eq_refl) in Hunf
      by (first [reflexivity | unfold scap; simpl; lia]).
    eexists. split; [apply Hunf; reflexivity|].
    simpl. split; [reflexivity|]. split.
    + unfold mem_wf. simpl. unfold scap. simpl. rewrite repeat_length.
      repeat split; lia.
    + reflexivity.
  - rewrite <- Edata in *. set (L := length data) in *.
    assert (HL : 0 < L) by (unfold L; rewrite Edata; simpl; lia).
    assert (Hr : src_read (mkSrc data None) N = (L, data, None, mkSrc [] None)).
    { unfold src_read. simpl. rewrite Edata. rewrite <- Edata.
      fold L. replace (Nat.min N (Nat.min N L)) with L by lia.
      unfold L. rewrite firstn_all, skipn_all. reflexivity. }
    rewrite (fill_loop_first (S fuel) (mkSrc data None) f0 o N L data _ eq_refl Hr)
      in Hunf by lia.
    set (B := write_at (repeat Byte.x00 N) 0 data) in Hunf.
    assert (HB : length B = N)
      by (unfold B; rewrite write_at_length; rewrite repeat_length; simpl; lia).
    rewrite (fill_loop_drained fuel (mkSrc [] None) (wrap64 (Z.of_nat L)) (set_buf f0 (Some (mkSlice B L))) o (mkSlice B L) eq_refl)
      in Hunf by (first [reflexivity | unfold scap; simpl; rewrite HB; lia]).
    rewrite Z.add_0_r, (wrap64_id (Z.of_nat L)), (wrap64_id (Z.of_nat L)) in Hunf by lia.
    eexists. split; [apply Hunf; reflexivity|].
    simpl. split; [reflexivity|]. split.
    + unfold mem_wf. simpl. unfold scap. simpl. rewrite HB. repeat split; lia.
    + unfold elems. simpl. unfold B.
      change L with (0 + length data). rewrite firstn_write_at by (rewrite repeat_length; lia).
      reflexivity.
Qed.

Lemma ReadFrom_short_source_in_memory_witness :
  0 < 4 /\ (Z.of_nat 4 < 2 ^ 63)%Z /\ 2 * length [Byte.x01; Byte.x02] <= 4 /\
  exists f', ReadFrom (fun _ n => n) 2 (mkSrc [Byte.x01; Byte.x02] None) (New (Z.of_nat 4), os_ok) =
    Ret ((Z.of_nat (length [Byte.x01; Byte.x02]), None, mkSrc [] None), (f', os_ok)) /\
    file f' = None /\ mem_wf f' /\ elems (nil_view (buf f')) = [Byte.x01; Byte.x02].
Proof.
  split; [lia|]. split; [simpl; lia|]. split; [simpl; lia|].
  apply (ReadFrom_short_source_in_memory (fun _ n => n) 0 4 [Byte.x01; Byte.x02] os_ok);
    [lia|simpl; lia|simpl; lia].
Defined.
